(** * jest-image-snapshot: the matcher of [src/index.js]

    A shallow embedding of [updateSnapshotState], [checkResult],
    [createSnapshotIdentifier] and the matcher returned by
    [configureToMatchImageSnapshot], followed by the properties of the
    specification that concern them.

    Layout
    - [JS], [Number] : the pieces of the JavaScript runtime the module relies
      on (truthiness, template rendering, [String.prototype.split],
      [replace], base64, and [Number::toString] on IEEE doubles);
    - [SnapshotState], [Result], [Options], .. : the objects the module reads
      and writes;
    - [World], [M] : the mutable process state and the state-and-exception
      monad in which the effectful functions are written;
    - [Imports] : what the module requires from elsewhere;
    - the functions of [index.js], in source order;
    - the vocabulary of the statements;
    - the lemmas and the theorems.

    Conventions
    - the counters of the snapshot state and of the ledger are integers;
    - the numbers of a comparison result are doubles;
    - a string is the sequence of its UTF-8 bytes;
    - storage is a finite map from paths to contents;
    - [fs.syncExists], which the matcher calls after the comparison, is not
      a function of Node's [fs]: the call throws a [TypeError];
    - what the matcher does to the outside (notification, prompts, child
      process, call of the comparison) is appended to a list of events; the
      outcome of each prompt race is an input of the call. *)

From Stdlib Require Import ZArith String Ascii List Floats.SpecFloat.
From stdpp Require Import gmap strings list fin_maps pretty.

Open Scope string_scope.
Open Scope Z_scope.

(* ===================================================================== *)
(** * The JavaScript runtime                                              *)
(* ===================================================================== *)

Module JS.

(** ** Characters and strings *)

Definition chr (n : nat) : string := String (ascii_of_nat n) EmptyString.

Definition LF : string := chr 10.
Definition TAB : string := chr 9.
Definition ESC : string := chr 27.
Definition BEL : string := chr 7.

(** [s.includes(sub)], as a proposition and as a test. *)
Definition Includes (sub s : string) : Prop :=
  ∃ pre post : string, s = pre +:+ sub +:+ post.

Fixpoint includes (sub s : string) : bool :=
  String.prefix sub s ||
  match s with
  | EmptyString => false
  | String _ s' => includes sub s'
  end.

(** Truthiness of a string: every string but the empty one. *)
Definition truthy (s : string) : bool :=
  match s with EmptyString => false | String _ _ => true end.

(** A value that is a string or [undefined]. *)
Definition truthy_opt (o : option string) : bool :=
  match o with Some s => truthy s | None => false end.

(** [a || b] where [a] is a string or [undefined]. *)
Definition or_else (a : option string) (b : string) : string :=
  match a with
  | Some s => if truthy s then s else b
  | None => b
  end.

(** [`${x}`] where [x] is a string or [undefined]. *)
Definition template (o : option string) : string :=
  match o with Some s => s | None => "undefined" end.

(** [n || 0] where [n] is an integer-valued number or [undefined]. *)
Definition or_zero (o : option Z) : Z :=
  match o with Some n => n | None => 0 end.

(** [`${n}`] where [n] is an integer-valued number or [undefined]. *)
Definition template_int (o : option Z) : string :=
  match o with Some n => pretty n | None => "undefined" end.

(** [a > b] where [a] may be [undefined]: [undefined] converts to [NaN],
    and every comparison with [NaN] is false. *)
Definition gt (a : option Z) (b : Z) : bool :=
  match a with Some n => b <? n | None => false end.

(** [s.split(sep)] for a non-empty separator: the leftmost occurrences of
    [sep] are cut out.  [skip] counts the characters of a matched separator
    that are still to be dropped, [cur] is the current piece, reversed. *)
Fixpoint split_go (sep : string) (skip : nat) (cur : list ascii) (s : string)
  : list string :=
  match s with
  | EmptyString => [string_of_list_ascii (rev cur)]
  | String c s' =>
      match skip with
      | S k => split_go sep k cur s'
      | O =>
          if String.prefix sep s
          then string_of_list_ascii (rev cur)
                 :: split_go sep (String.length sep - 1) [] s'
          else split_go sep 0 (c :: cur) s'
      end
  end.

Definition split (sep s : string) : list string := split_go sep 0 [] s.

(** [s.replace(pat, '')] for a string pattern: the first occurrence of
    [pat] is removed. *)
Fixpoint drop (n : nat) (s : string) : string :=
  match n, s with
  | S k, String _ s' => drop k s'
  | _, _ => s
  end.

Fixpoint remove_first (pat s : string) : string :=
  if String.prefix pat s then drop (String.length pat) s
  else match s with
       | EmptyString => EmptyString
       | String c s' => String c (remove_first pat s')
       end.

(** ** [Buffer.from(s).toString('base64')] *)

Definition b64_alphabet : string :=
  "ABCDEFGHIJKLMNOPQRSTUVWXYZabcdefghijklmnopqrstuvwxyz0123456789+/".

Definition b64_char (n : N) : string :=
  match String.get (N.to_nat n) b64_alphabet with
  | Some c => String c EmptyString
  | None => EmptyString
  end.

Definition sextet (w : N) (i : N) : N := N.land (N.shiftr w (6 * i)) 63.

Fixpoint base64_go (bs : list N) : string :=
  match bs with
  | [] => EmptyString
  | [a] =>
      let w := N.shiftl a 16 in
      b64_char (sextet w 3) +:+ b64_char (sextet w 2) +:+ "=="
  | [a; b] =>
      let w := N.lor (N.shiftl a 16) (N.shiftl b 8) in
      b64_char (sextet w 3) +:+ b64_char (sextet w 2)
        +:+ b64_char (sextet w 1) +:+ "="
  | a :: b :: c :: rest =>
      let w := N.lor (N.lor (N.shiftl a 16) (N.shiftl b 8)) c in
      b64_char (sextet w 3) +:+ b64_char (sextet w 2)
        +:+ b64_char (sextet w 1) +:+ b64_char (sextet w 0)
        +:+ base64_go rest
  end%N.

Definition base64 (s : string) : string :=
  base64_go (map N_of_ascii (list_ascii_of_string s)).

End JS.

(** ** Numbers

    A JavaScript number is an IEEE 754 binary64 value.  The arithmetic is the
    executable specification of the Standard Library ([SpecFloat]); what
    follows adds the conversion of a number to a string, which the template
    literals of [checkResult] rely on. *)

Module Number.

Definition prec : Z := 53.
Definition emax : Z := 1024.
Definition emin : Z := 3 - emax - prec.

Definition t : Set := spec_float.

Definition of_Z (z : Z) : t := binary_normalize prec emax z 0 false.

Definition mul : t → t → t := SFmul prec emax.
Definition div : t → t → t := SFdiv prec emax.

(** The double nearest to the rational [num/den], for integers below
    [2^53]: the quotient of two exact doubles is rounded once.  The literal
    [0.023] is [ratio 23 1000]. *)
Definition ratio (num den : Z) : t := div (of_Z num) (of_Z den).

(** *** [Number::toString] (ECMA-262, radix 10)

    For a finite positive [x = m * 2^e] the digits are the integer [s] and
    the position [p] with [s * 10^p] inside the rounding interval of [x],
    [p] as large as possible (hence as few digits as possible) and [s] as
    close to [x] as possible. *)

Definition canonical (m : positive) (e : Z) : Z * Z :=
  let e' := Z.max (Z.log2 (Z.pos m) + 1 + e - prec) emin in
  if e' <=? e then (Z.pos m * 2 ^ (e - e'), e') else (Z.pos m, e).

Definition ceil_div (a q : Z) : Z := - ((- a) / q).

(** The digits at position [p], if some multiple of [10^p] rounds to the
    number.  All quantities are scaled to integers: the interval is
    [lo/q, hi/q] around [mid/q], in units of [10^p]. *)
Definition digits_at (mc ec p : Z) : option Z :=
  let delta := if (mc =? 2 ^ (prec - 1)) && (emin <? ec) then 1 else 2 in
  let F := if 0 <=? ec - 2 then 2 ^ (ec - 2) else 1 in
  let D := if 0 <=? ec - 2 then 1 else 2 ^ (2 - ec) in
  let A := if 0 <=? p then 10 ^ p else 1 in
  let B := if 0 <=? p then 1 else 10 ^ (- p) in
  let lo := (4 * mc - delta) * F * B in
  let hi := (4 * mc + 2) * F * B in
  let mid := 4 * mc * F * B in
  let q := A * D in
  let closed := Z.even mc in
  let smin := Z.max 1 (if closed then ceil_div lo q else lo / q + 1) in
  let smax := if closed then hi / q else ceil_div hi q - 1 in
  if smin <=? smax then
    let s0 := mid / q in
    let r := mid mod q in
    let nearest :=
      if 2 * r <? q then s0
      else if q <? 2 * r then s0 + 1
      else if Z.even s0 then s0 else s0 + 1 in
    Some (Z.min smax (Z.max smin nearest))
  else None.

Fixpoint shortest_from (fuel : nat) (mc ec p : Z) : option (Z * Z) :=
  match fuel with
  | O => None
  | S fuel' =>
      match digits_at mc ec p with
      | Some s => Some (s, p)
      | None => shortest_from fuel' mc ec (p - 1)
      end
  end.

Definition shortest (m : positive) (e : Z) : option (Z * Z) :=
  let '(mc, ec) := canonical m e in
  shortest_from 700 mc ec 310.

Fixpoint zeros (n : nat) : string :=
  match n with O => EmptyString | S k => String "0" (zeros k) end.

Definition format (s p : Z) : string :=
  let digits := pretty s in
  let len := String.length digits in
  let k := Z.of_nat len in
  let n := p + k in
  if (k <=? n) && (n <=? 21) then
    digits +:+ zeros (Z.to_nat (n - k))
  else if (0 <? n) && (n <=? 21) then
    substring 0 (Z.to_nat n) digits +:+ "."
      +:+ substring (Z.to_nat n) (len - Z.to_nat n) digits
  else if (-6 <? n) && (n <=? 0) then
    "0." +:+ zeros (Z.to_nat (- n)) +:+ digits
  else
    let e := n - 1 in
    let mantissa :=
      if k =? 1 then digits
      else substring 0 1 digits +:+ "." +:+ substring 1 (len - 1) digits in
    mantissa +:+ "e" +:+ (if 0 <=? e then "+" else "-") +:+ pretty (Z.abs e).

Definition toString (x : t) : string :=
  match x with
  | S754_nan => "NaN"
  | S754_zero _ => "0"
  | S754_infinity false => "Infinity"
  | S754_infinity true => "-Infinity"
  | S754_finite sign m e =>
      (if sign then "-" else "")
        +:+ match shortest m e with
            | Some (s, p) => format s p
            | None => EmptyString
            end
  end.

End Number.

(* ===================================================================== *)
(** * The data of the module                                              *)
(* ===================================================================== *)

(** The snapshot state of the test runner: the object [this.snapshotState].
    [_counters] is the [Map] from test names to the number of matcher calls
    made by the test so far, [_updateSnapshot] is ['none'], ['new'] or
    ['all']. *)
Module SnapshotState.

Record t : Type := mk {
  matched : Z;
  added : Z;
  updated : Z;
  unmatched : Z;
  _counters : gmap string Z;
  _updateSnapshot : string;
}.

(** An object holding some of the fields, as passed to lodash's [merge]. *)
Record partial : Type := mkPartial {
  matched' : option Z;
  added' : option Z;
  updated' : option Z;
  unmatched' : option Z;
  _counters' : option (gmap string Z);
}.

Definition only_matched (n : Z) : partial := mkPartial (Some n) None None None None.
Definition only_added (n : Z) : partial := mkPartial None (Some n) None None None.
Definition only_updated (n : Z) : partial := mkPartial None None (Some n) None None.
Definition only_unmatched (n : Z) : partial := mkPartial None None None (Some n) None.
Definition only_counters (c : gmap string Z) : partial :=
  mkPartial None None None None (Some c).

(** [merge(object, source)]: every field present in [source] is assigned
    to [object]; a [Map] is not a plain object and is assigned as it is. *)
Definition merge (object : t) (source : partial) : t :=
  mk (default (matched object) (matched' source))
     (default (added object) (added' source))
     (default (updated object) (updated' source))
     (default (unmatched object) (unmatched' source))
     (default (_counters object) (_counters' source))
     (_updateSnapshot object).

(** [state._counters.set(..)]: the map held by the state is mutated in
    place. *)
Definition set_counters (c : gmap string Z) (s : t) : t :=
  mk (matched s) (added s) (updated s) (unmatched s) c (_updateSnapshot s).

End SnapshotState.

(** The object returned by the image comparison ([./diff-snapshot]): either
    [{ updated: true }], [{ added: true }], or the outcome of a comparison.
    A field that the object lacks reads as [false]. *)
Module Result.

Record dimensions : Type := mkDimensions {
  baselineWidth : Number.t;
  baselineHeight : Number.t;
  receivedWidth : Number.t;
  receivedHeight : Number.t;
}.

Record t : Type := mk {
  updated : bool;
  added : bool;
  pass : bool;
  diffSize : bool;
  diffRatio : Number.t;
  diffPixelCount : Number.t;
  imageDimensions : dimensions;
  diffOutputPath : string;
  imgSrcString : string;
}.

Definition no_dimensions : dimensions :=
  mkDimensions S754_nan S754_nan S754_nan S754_nan.

(** [{ updated: true }] *)
Definition just_updated : t :=
  mk true false false false S754_nan S754_nan no_dimensions "" "".

(** [{ added: true }] *)
Definition just_added : t :=
  mk false true false false S754_nan S754_nan no_dimensions "" "".

(** The outcome of a comparison, [Compared{pass, ..}] in the words of the
    specification: neither [updated] nor [added]. *)
Definition compared (r : t) : bool := negb (updated r) && negb (added r).

End Result.

(** The argument of a [customSnapshotIdentifier] function. *)
Module IdentifierArgs.
Record t : Type := mk {
  testPath : string;
  currentTestName : string;
  counter : option Z;
  defaultIdentifier : string;
}.
End IdentifierArgs.

(** The option [customSnapshotIdentifier]: absent, a string, or a function
    whose result is a string or [undefined]. *)
Inductive CustomSnapshotIdentifier : Type :=
| CsiUndefined
| CsiString (s : string)
| CsiFunction (f : IdentifierArgs.t → option string).

(** The options object, of [configureToMatchImageSnapshot] and of a matcher
    call alike; [None] is an absent field. *)
Module Options.

Record t : Type := mk {
  customDiffConfig : option (gmap string string);
  customSnapshotIdentifier : CustomSnapshotIdentifier;
  customSnapshotsDir : option string;
  storeReceivedOnFailure : option bool;
  customReceivedDir : option string;
  customReceivedPostfix : option string;
  customDiffDir : option string;
  onlyDiff : option bool;
  diffDirection : option string;
  noColors : option bool;
  failureThreshold : option Number.t;
  failureThresholdType : option string;
  updatePassedSnapshot : option bool;
  blur : option Number.t;
  runInProcess : option bool;
  dumpDiffToConsole : option bool;
  dumpInlineDiffToConsole : option bool;
  allowSizeMismatch : option bool;
  comparisonMethod : option string;
}.

(** [{}] *)
Definition empty : t :=
  mk None CsiUndefined None None None None None None None None None None
     None None None None None None None.

End Options.

(** The argument of [diffImageToSnapshot] / [runDiffImageToSnapshot]. *)
Module DiffArgs.
Record t : Type := mk {
  receivedImageBuffer : string;
  snapshotsDir : string;
  storeReceivedOnFailure : bool;
  receivedDir : string;
  receivedPostfix : string;
  diffDir : string;
  diffDirection : string;
  onlyDiff : bool;
  snapshotIdentifier : string;
  updateSnapshot : bool;
  customDiffConfig : gmap string string;
  failureThreshold : Number.t;
  failureThresholdType : string;
  updatePassedSnapshot : bool;
  blur : Number.t;
  allowSizeMismatch : bool;
  comparisonMethod : string;
}.
End DiffArgs.

(** What the matcher does to the outside, in order. *)
Inductive Event : Type :=
| notify (title message : string) (wait timeout sound : bool)
| stdout_write (s : string)
| compare_images (inProcess : bool) (snapshotIdentifier : string)
| set_timeout (ms : Z)
| confirm_run (name message : string)
| confirm_stop (name : string)
| exec (command : string).

(** The outcome of [Promise.race([timer, prompt.run()])]: the prompt settles
    first, with the user's answer or with a rejection, or the timer does. *)
Inductive Race : Type :=
| Answered (answer : bool)
| TimerFirst
| Rejected (reason : string).

(** The two races of one matcher call. *)
Record Interaction : Type := mkInteraction {
  viewRace : Race;
  updateRace : Race;
}.

(** The receiver of a matcher call, but for [snapshotState], which is the
    object held by the [World] below. *)
Record This : Type := mkThis {
  testPath : string;
  currentTestName : string;
  isNot : bool;
}.

(* ===================================================================== *)
(** * The process state and the monad of effects                          *)
(* ===================================================================== *)

Abbreviation Files := (gmap string string).

(** Everything a matcher call can read or write.  [RETRY_TIMES] is
    [global[Symbol.for('RETRY_TIMES')]] as [parseInt(.., 10)] reads it,
    [None] when it reads [NaN]. *)
Record World : Type := mkWorld {
  UNSTABLE_SKIP_REPORTING : bool;
  RETRY_TIMES : option Z;
  process_env : gmap string string;
  timesCalled : gmap string Z;
  snapshotState : SnapshotState.t;
  files : Files;
  touchedFiles : list string;
  events : list Event;
}.

Definition with_timesCalled (f : gmap string Z → gmap string Z) (w : World) : World :=
  mkWorld (UNSTABLE_SKIP_REPORTING w) (RETRY_TIMES w) (process_env w)
    (f (timesCalled w)) (snapshotState w) (files w) (touchedFiles w) (events w).

Definition with_snapshotState (f : SnapshotState.t → SnapshotState.t) (w : World) : World :=
  mkWorld (UNSTABLE_SKIP_REPORTING w) (RETRY_TIMES w) (process_env w)
    (timesCalled w) (f (snapshotState w)) (files w) (touchedFiles w) (events w).

Definition with_files (f : Files → Files) (w : World) : World :=
  mkWorld (UNSTABLE_SKIP_REPORTING w) (RETRY_TIMES w) (process_env w)
    (timesCalled w) (snapshotState w) (f (files w)) (touchedFiles w) (events w).

Definition with_touchedFiles (f : list string → list string) (w : World) : World :=
  mkWorld (UNSTABLE_SKIP_REPORTING w) (RETRY_TIMES w) (process_env w)
    (timesCalled w) (snapshotState w) (files w) (f (touchedFiles w)) (events w).

Definition with_events (f : list Event → list Event) (w : World) : World :=
  mkWorld (UNSTABLE_SKIP_REPORTING w) (RETRY_TIMES w) (process_env w)
    (timesCalled w) (snapshotState w) (files w) (touchedFiles w) (f (events w)).

(** How a computation ends: with a value, or with a thrown [Error]. *)
Inductive Completion (A : Type) : Type :=
| Normal (a : A)
| Thrown (message : string).
Arguments Normal {A} a.
Arguments Thrown {A} message.

(** A computation: it runs in a world and leaves a world, whether it
    returns or throws. *)
Definition M (A : Type) : Type := World → Completion A * World.

#[global] Instance M_ret : MRet M := λ A a w, (Normal a, w).

#[global] Instance M_bind : MBind M := λ A B f m w,
  match m w with
  | (Normal a, w') => f a w'
  | (Thrown e, w') => (Thrown e, w')
  end.

Definition throw {A : Type} (e : string) : M A := λ w, (Thrown e, w).
Definition gets {A : Type} (f : World → A) : M A := λ w, (Normal (f w), w).
Definition modify (f : World → World) : M unit := λ w, (Normal tt, f w).
Definition emit (e : Event) : M unit := modify (with_events (λ l, app l [e])).

(** The result of the matcher. [message] is a closure, called by the
    reporter if and when it wants the text. *)
Record Verdict : Type := mkVerdict {
  message : M string;
  pass : bool;
}.

(* ===================================================================== *)
(** * What [index.js] imports                                             *)
(* ===================================================================== *)

(** A [chalk] instance, with the three styles the module uses. *)
Record Chalk : Type := mkChalk {
  bold_red : string → string;
  red : string → string;
  bgCyan : string → string;
}.

(** The image comparison of [./diff-snapshot]: it reads and writes files,
    and returns a result or throws. *)
Definition Engine : Type := DiffArgs.t → Files → Completion Result.t * Files.

(** [lodash/kebabCase], [path], [new Chalk({ level })] (the level is [None]
    when left to the library), and the two entry points of
    [./diff-snapshot].  The module is verified for every such environment. *)
Class Imports : Type := {
  kebabCase : string → string;
  basename : string → string;
  dirname : string → string;
  join : list string → string;
  newChalk : option Z → Chalk;
  diffImageToSnapshot : Engine;
  runDiffImageToSnapshot : Engine;
}.

(* ===================================================================== *)
(** * [index.js]                                                          *)
(* ===================================================================== *)

Definition SNAPSHOTS_DIR : string := "__image_snapshots__".
Definition DIFF_DIR : string := "__diff_output".
Definition RECEIVED_DIR : string := "__received_snapshots__".

Definition retry_error : string :=
  "A unique customSnapshotIdentifier must be set when jest.retryTimes() is used".

Definition not_error : string :=
  "Jest: `.not` cannot be used with `.toMatchImageSnapshot()`.".

(** The error of the call [fs.syncExists(..)]: [fs] has no property of
    that name. *)
Definition type_error : string := "TypeError: fs.syncExists is not a function".

(** [updateSnapshotState(originalSnapshotState, partialSnapshotState)], the
    original state being the one of the world. *)
Definition updateSnapshotState (partialSnapshotState : SnapshotState.partial)
  : M SnapshotState.t :=
  skip ← gets UNSTABLE_SKIP_REPORTING;
  if skip : bool then gets snapshotState
  else
    modify (with_snapshotState (λ s, SnapshotState.merge s partialSnapshotState));;
    gets snapshotState.

(** The closure [message] of a failed comparison ([failure_message] below)
    and the pieces of its text, one per template literal of the source. *)
Definition supportedInlineTerms : list string := ["iTerm.app"; "WezTerm"].

Definition size_failure (d : Result.dimensions) : string :=
  "Expected image to be the same size as the snapshot ("
    +:+ Number.toString (Result.baselineWidth d) +:+ "x"
    +:+ Number.toString (Result.baselineHeight d)
    +:+ "), but was different ("
    +:+ Number.toString (Result.receivedWidth d) +:+ "x"
    +:+ Number.toString (Result.receivedHeight d) +:+ ")." +:+ JS.LF.

Definition percentage_failure (differencePercentage diffPixelCount : Number.t)
  : string :=
  "Expected image to match or be a close match to snapshot but was "
    +:+ Number.toString differencePercentage
    +:+ "% different from snapshot ("
    +:+ Number.toString diffPixelCount +:+ " differing pixels)." +:+ JS.LF.

Definition see_diff (chalk : Chalk) (diffOutputPath : string) : string :=
  bold_red chalk "See diff for details:" +:+ " " +:+ red chalk diffOutputPath.

Definition inline_diff (result : Result.t) : string :=
  JS.LF +:+ JS.LF +:+ JS.TAB +:+ JS.ESC +:+ "]1337;File=name="
    +:+ JS.base64 (Result.diffOutputPath result)
    +:+ ";inline=1;width=40:"
    +:+ JS.remove_first "data:image/png;base64," (Result.imgSrcString result)
    +:+ JS.BEL +:+ JS.ESC +:+ JS.LF +:+ JS.LF.

Definition paste_diff (chalk : Chalk) (result : Result.t) : string :=
  JS.LF
    +:+ bold_red chalk "Or paste below image diff string to your browser`s URL bar."
    +:+ JS.LF +:+ " " +:+ Result.imgSrcString result.

Definition failure_message (result : Result.t) (differencePercentage : Number.t)
    (chalk : Chalk)
    (dumpDiffToConsole dumpInlineDiffToConsole allowSizeMismatch : bool)
  : M string :=
  let failure :=
    if Result.diffSize result && negb allowSizeMismatch
    then size_failure (Result.imageDimensions result)
    else percentage_failure differencePercentage (Result.diffPixelCount result) in
  let failure := failure +:+ see_diff chalk (Result.diffOutputPath result) in
  inline ←
    (if dumpInlineDiffToConsole then
       env ← gets process_env;
       mret (match env !! "TERM_PROGRAM" with
             | Some term => bool_decide (term ∈ supportedInlineTerms)
             | None => false
             end
             || bool_decide (is_Some (env !! "ENABLE_INLINE_DIFF")))
     else mret false);
  if inline : bool then mret (failure +:+ inline_diff result)
  else if dumpDiffToConsole || dumpInlineDiffToConsole
       then mret (failure +:+ paste_diff chalk result)
       else mret failure.

(** [() => ''] *)
Definition empty_message : M string := mret EmptyString.

(** [checkResult({ result, snapshotState, retryTimes, snapshotIdentifier,
    chalk, dumpDiffToConsole, dumpInlineDiffToConsole, allowSizeMismatch })] *)
Definition checkResult (result : Result.t) (retryTimes : Z)
    (snapshotIdentifier : string) (chalk : Chalk)
    (dumpDiffToConsole dumpInlineDiffToConsole allowSizeMismatch : bool)
  : M Verdict :=
  state ← gets snapshotState;
  if Result.updated result then
    updateSnapshotState
      (SnapshotState.only_updated (SnapshotState.updated state + 1));;
    mret (mkVerdict empty_message true)
  else if Result.added result then
    updateSnapshotState
      (SnapshotState.only_added (SnapshotState.added state + 1));;
    mret (mkVerdict empty_message true)
  else if Result.pass result then
    updateSnapshotState
      (SnapshotState.only_matched (SnapshotState.matched state + 1));;
    mret (mkVerdict empty_message true)
  else
    currentRun ← gets (λ w, timesCalled w !! snapshotIdentifier);
    (if (retryTimes =? 0) || JS.gt currentRun retryTimes then
       updateSnapshotState
         (SnapshotState.only_unmatched (SnapshotState.unmatched state + 1));;
       mret tt
     else mret tt);;
    let differencePercentage :=
      Number.mul (Result.diffRatio result) (Number.of_Z 100) in
    mret (mkVerdict
            (failure_message result differencePercentage chalk
               dumpDiffToConsole dumpInlineDiffToConsole allowSizeMismatch)
            false).

(** Truthiness of the option [customSnapshotIdentifier]. *)
Definition csi_truthy (c : CustomSnapshotIdentifier) : bool :=
  match c with
  | CsiUndefined => false
  | CsiString s => JS.truthy s
  | CsiFunction _ => true
  end.

Section WithImports.

Context `{Imports}.

(** [createSnapshotIdentifier({ retryTimes, testPath, currentTestName,
    customSnapshotIdentifier, snapshotState })] *)
Definition createSnapshotIdentifier (retryTimes : Z)
    (testPath currentTestName : string)
    (customSnapshotIdentifier : CustomSnapshotIdentifier)
  : M string :=
  counter ← gets (λ w,
    SnapshotState._counters (snapshotState w) !! currentTestName);
  let dirName := JS.split "..." currentTestName in
  let itTitle := dirName !! 1%nat in
  let defaultIdentifier :=
    kebabCase (basename testPath +:+ "-" +:+ currentTestName +:+ "-"
                 +:+ JS.template_int counter) in
  snapshotIdentifier ←
    match customSnapshotIdentifier with
    | CsiFunction f =>
        let customRes :=
          f (IdentifierArgs.mk testPath currentTestName counter
               defaultIdentifier) in
        if negb (retryTimes =? 0) && negb (JS.truthy_opt customRes)
        then throw retry_error
        else mret (JS.or_else customRes defaultIdentifier)
    | CsiString s => mret (JS.or_else (Some s) (JS.template itTitle +:+ "-snap"))
    | CsiUndefined => mret (JS.template itTitle +:+ "-snap")
    end;
  if negb (retryTimes =? 0) then
    if negb (csi_truthy customSnapshotIdentifier) then throw retry_error
    else
      modify (with_timesCalled (λ t,
        <[snapshotIdentifier := JS.or_zero (t !! snapshotIdentifier) + 1]> t));;
      mret snapshotIdentifier
  else mret snapshotIdentifier.

(** ** The matcher *)

(** [fs.existsSync(p)]: is there a file at [p]. *)
Definition existsSync (p : string) : M bool :=
  gets (λ w, bool_decide (is_Some (files w !! p))).

(** [fs.syncExists(p)]: Node's [fs] has [existsSync] and no [syncExists],
    so [fs.syncExists] is [undefined] and calling it throws a [TypeError],
    whatever the argument. *)
Definition syncExists (p : string) : M bool := throw type_error.

(** [fs.renameSync(oldPath, newPath)] *)
Definition renameSync (oldPath newPath : string) : M unit :=
  content ← gets (λ w, files w !! oldPath);
  match content with
  | Some c => modify (with_files (λ f, <[newPath := c]> (delete oldPath f)))
  | None => throw ("ENOENT: no such file or directory, rename " +:+ oldPath)
  end.

(** [OutdatedSnapshotReporter.markTouchedFile(p)] *)
Definition markTouchedFile (p : string) : M unit :=
  modify (with_touchedFiles (λ l, app l [p])).

(** The call [imageToSnapshot({ .. })], where [imageToSnapshot] is
    [runInProcess ? diffImageToSnapshot : runDiffImageToSnapshot]. *)
Definition on_files (engine : Engine) (args : DiffArgs.t) : M Result.t :=
  λ w, let '(r, f) := engine args (files w) in (r, with_files (λ _, f) w).

Definition run_engine (runInProcess : bool) (args : DiffArgs.t) : M Result.t :=
  let imageToSnapshot :=
    if runInProcess then diffImageToSnapshot else runDiffImageToSnapshot in
  emit (compare_images runInProcess (DiffArgs.snapshotIdentifier args));;
  on_files imageToSnapshot args.

(** The statement that counts the call for the test:
    [updateSnapshotState(snapshotState, { _counters:
       snapshotState._counters.set(currentTestName,
         (snapshotState._counters.get(currentTestName) || 0) + 1) })].
    The argument is evaluated first, and [Map.prototype.set] updates the
    map of the state in place and returns it. *)
Definition count_invocation (currentTestName : string) : M unit :=
  counters ← gets (λ w, SnapshotState._counters (snapshotState w));
  let counters' :=
    <[currentTestName := JS.or_zero (counters !! currentTestName) + 1]> counters in
  modify (with_snapshotState (SnapshotState.set_counters counters'));;
  updateSnapshotState (SnapshotState.only_counters counters');;
  mret tt.

(** A [Confirm] prompt raced against a timer of 60000 ms that resolves to
    [false]. *)
Definition confirm_race (name message : string) (r : Race) : M bool :=
  emit (set_timeout 60000);;
  emit (confirm_run name message);;
  match r with
  | Answered answer => mret answer
  | TimerFirst => mret false
  | Rejected reason => throw reason
  end.

(** The body of [if (fs.syncExists(..received file..)) { .. }]: the
    notification, the two prompts, and the result to classify. *)
Definition review (chalk : Chalk) (currentTestName snapshotIdentifier : string)
    (snapshotsDir receivedDir diffDir receivedPostfix : string)
    (io : Interaction) (result : Result.t) : M Result.t :=
  emit (notify "Snapshot test failed!"
          ("Received diff for " +:+ currentTestName) false false true);;
  emit (stdout_write
          (JS.LF +:+ bgCyan chalk ("Received difference for " +:+ currentTestName)
             +:+ JS.LF));;
  viewAction ← confirm_race "View Question"
                 "Do you want to view the diff in your browser?" (viewRace io);
  (if viewAction : bool then
     emit (exec ("open -a " +:+ JS.chr 34 +:+ "Google Chrome file://"
                   +:+ diffDir +:+ "/" +:+ snapshotIdentifier +:+ "-diff.png"))
   else emit (confirm_stop "View Question"));;
  updateAction ← confirm_race "Update Question"
                   ("Do you want to update " +:+ snapshotIdentifier +:+ "?")
                   (updateRace io);
  if updateAction : bool then
    renameSync
      (join [receivedDir; snapshotIdentifier +:+ receivedPostfix +:+ ".png"])
      (join [snapshotsDir; snapshotIdentifier +:+ ".png"]);;
    mret Result.just_updated
  else
    emit (confirm_stop "Update Question");;
    mret result.

Definition missing_baseline_message (chalk : Chalk) : M string :=
  mret ("New snapshot was " +:+ bold_red chalk "not written"
          +:+ ". The update flag must be explicitly "
          +:+ "passed to write a new snapshot." +:+ JS.LF +:+ JS.LF
          +:+ " + This is likely because this test is run in a continuous "
          +:+ "integration (CI) environment in which snapshots are not written by default."
          +:+ JS.LF +:+ JS.LF).

(** An option of the call, else the option of the configuration, else the
    default. *)
Definition pick {A : Type} (call common : option A) (dflt : A) : A :=
  default (default dflt common) call.

Definition pick_opt {A : Type} (call common : option A) : option A :=
  match call with Some _ => call | None => common end.

(** [configureToMatchImageSnapshot(common)] returns the matcher
    [toMatchImageSnapshot(received, options)], called on [this]; the two
    prompts of the call, if they are shown, end as [io] says. *)
Definition configureToMatchImageSnapshot (common : Options.t)
    (this : This) (received : string) (options : Options.t)
    (io : Interaction) : M Verdict :=
  let customSnapshotIdentifier :=
    match Options.customSnapshotIdentifier options with
    | CsiUndefined => Options.customSnapshotIdentifier common
    | c => c
    end in
  let customSnapshotsDir :=
    pick_opt (Options.customSnapshotsDir options) (Options.customSnapshotsDir common) in
  let storeReceivedOnFailure :=
    pick (Options.storeReceivedOnFailure options)
      (Options.storeReceivedOnFailure common) true in
  let customReceivedDir :=
    pick_opt (Options.customReceivedDir options) (Options.customReceivedDir common) in
  let customReceivedPostfix :=
    pick (Options.customReceivedPostfix options)
      (Options.customReceivedPostfix common) "-received" in
  let customDiffDir :=
    pick_opt (Options.customDiffDir options) (Options.customDiffDir common) in
  let onlyDiff := pick (Options.onlyDiff options) (Options.onlyDiff common) false in
  let diffDirection :=
    pick (Options.diffDirection options) (Options.diffDirection common) "horizontal" in
  let customDiffConfig := default ∅ (Options.customDiffConfig options) in
  let noColors := pick_opt (Options.noColors options) (Options.noColors common) in
  let failureThreshold :=
    pick (Options.failureThreshold options) (Options.failureThreshold common)
      (Number.of_Z 0) in
  let failureThresholdType :=
    pick (Options.failureThresholdType options)
      (Options.failureThresholdType common) "pixel" in
  let updatePassedSnapshot :=
    pick (Options.updatePassedSnapshot options)
      (Options.updatePassedSnapshot common) false in
  let blur := pick (Options.blur options) (Options.blur common) (Number.of_Z 0) in
  let runInProcess :=
    pick (Options.runInProcess options) (Options.runInProcess common) false in
  let dumpDiffToConsole :=
    pick (Options.dumpDiffToConsole options) (Options.dumpDiffToConsole common) false in
  let dumpInlineDiffToConsole :=
    pick (Options.dumpInlineDiffToConsole options)
      (Options.dumpInlineDiffToConsole common) false in
  let allowSizeMismatch :=
    pick (Options.allowSizeMismatch options) (Options.allowSizeMismatch common) false in
  let comparisonMethod :=
    pick (Options.comparisonMethod options) (Options.comparisonMethod common)
      "pixelmatch" in
  let chalkOptions : option Z :=
    match noColors with
    | Some b => Some (if b : bool then 0 else 1)
    | None => None
    end in
  let chalk := newChalk chalkOptions in
  retryTimes ← gets (λ w, JS.or_zero (RETRY_TIMES w));
  (if isNot this then throw not_error else mret tt);;
  count_invocation (currentTestName this);;
  snapshotIdentifier ←
    createSnapshotIdentifier retryTimes (testPath this) (currentTestName this)
      customSnapshotIdentifier;
  let dirName := JS.split "..." (currentTestName this) in
  let describeName := JS.template (dirName !! 0%nat) in
  let snapshotsDir :=
    JS.or_else customSnapshotsDir
      (join [dirname (testPath this); SNAPSHOTS_DIR; kebabCase describeName]) in
  let receivedDir :=
    JS.or_else customReceivedDir
      (join [dirname (testPath this); RECEIVED_DIR; kebabCase describeName]) in
  let diffDir :=
    JS.or_else customDiffDir
      (join [dirname (testPath this); DIFF_DIR; kebabCase describeName]) in
  let receivedPostfix := customReceivedPostfix in
  let baselineSnapshotPath := join [snapshotsDir; snapshotIdentifier +:+ ".png"] in
  markTouchedFile baselineSnapshotPath;;
  updateSnapshot ← gets (λ w, SnapshotState._updateSnapshot (snapshotState w));
  baselineExists ← existsSync baselineSnapshotPath;
  if String.eqb updateSnapshot "none" && negb baselineExists then
    mret (mkVerdict (missing_baseline_message chalk) false)
  else
    result ← run_engine runInProcess
      (DiffArgs.mk received snapshotsDir storeReceivedOnFailure receivedDir
         receivedPostfix diffDir diffDirection onlyDiff snapshotIdentifier
         (String.eqb updateSnapshot "all")
         (customDiffConfig ∪ default ∅ (Options.customDiffConfig common))
         failureThreshold failureThresholdType updatePassedSnapshot blur
         allowSizeMismatch comparisonMethod);
    receivedExists ← syncExists
      (join [receivedDir; snapshotIdentifier +:+ receivedPostfix +:+ ".png"]);
    result ←
      (if receivedExists : bool then
         review chalk (currentTestName this) snapshotIdentifier
           snapshotsDir receivedDir diffDir receivedPostfix io result
       else mret result);
    checkResult result retryTimes snapshotIdentifier chalk
      dumpDiffToConsole dumpInlineDiffToConsole allowSizeMismatch.

(** [module.exports.toMatchImageSnapshot] *)
Definition toMatchImageSnapshot : This → string → Options.t → Interaction → M Verdict :=
  configureToMatchImageSnapshot Options.empty.

End WithImports.

(* ===================================================================== *)
(** * An environment for the examples                                     *)
(* ===================================================================== *)

(** The theorems hold for every [Imports].  The examples need one: paths
    with ["/"], a chalk that writes ANSI codes from level 1 on and plain
    text at level 0 (and when the level is left to it), words in lower case
    joined by ["-"] for [kebabCase], and a comparison that is handed over. *)
Module Sample.

Definition is_lower (c : ascii) : bool :=
  let n := nat_of_ascii c in (97 <=? n)%nat && (n <=? 122)%nat.
Definition is_upper (c : ascii) : bool :=
  let n := nat_of_ascii c in (65 <=? n)%nat && (n <=? 90)%nat.
Definition is_digit (c : ascii) : bool :=
  let n := nat_of_ascii c in (48 <=? n)%nat && (n <=? 57)%nat.
Definition lower (c : ascii) : ascii :=
  if is_upper c then ascii_of_nat (nat_of_ascii c + 32) else c.

(** [pending] tells whether a word has been written and a separator is
    due before the next one. *)
Fixpoint kebab_go (started pending : bool) (s : string) : string :=
  match s with
  | EmptyString => EmptyString
  | String c s' =>
      if is_lower c || is_upper c || is_digit c then
        (if started && pending then "-" else "")
          +:+ String (lower c) (kebab_go true false s')
      else kebab_go started true s'
  end.

Definition kebabCase (s : string) : string := kebab_go false false s.

Fixpoint last_slash (s : string) (pos : nat) (found : option nat) : option nat :=
  match s with
  | EmptyString => found
  | String c s' =>
      last_slash s' (S pos) (if Ascii.eqb c "/" then Some pos else found)
  end.

Definition basename (p : string) : string :=
  match last_slash p 0 None with
  | Some i => substring (S i) (String.length p - S i) p
  | None => p
  end.

Definition dirname (p : string) : string :=
  match last_slash p 0 None with
  | Some i => substring 0 i p
  | None => "."
  end.

Fixpoint join (parts : list string) : string :=
  match parts with
  | [] => "."
  | [p] => p
  | p :: rest => p +:+ "/" +:+ join rest
  end.

Definition sgr (open close : string) (s : string) : string :=
  JS.ESC +:+ "[" +:+ open +:+ "m" +:+ s +:+ JS.ESC +:+ "[" +:+ close +:+ "m".

Definition newChalk (level : option Z) : Chalk :=
  if 0 <? default 0 level then
    mkChalk (λ s, sgr "1" "22" (sgr "31" "39" s)) (sgr "31" "39") (sgr "46" "49")
  else mkChalk id id id.

Definition imports (engine : Engine) : Imports :=
  Build_Imports kebabCase basename dirname join newChalk engine engine.

(** A comparison that returns [r] and writes nothing. *)
Definition returns (r : Result.t) : Engine := λ _ f, (Normal r, f).

(** A comparison that returns [r] after writing [content] at [path]. *)
Definition writes (path content : string) (r : Result.t) : Engine :=
  λ _ f, (Normal r, <[path := content]> f).

End Sample.

(* ===================================================================== *)
(** * The vocabulary of the statements                                    *)
(* ===================================================================== *)

(** ** The world a step leaves *)

(** The world after [updateSnapshotState]. *)
Definition merged (p : SnapshotState.partial) (w : World) : World :=
  if UNSTABLE_SKIP_REPORTING w then w
  else with_snapshotState (λ s, SnapshotState.merge s p) w.

(** The ledger after one more resolution of [snapshotIdentifier]. *)
Definition attempted (snapshotIdentifier : string) (w : World) : World :=
  with_timesCalled (λ t,
    <[snapshotIdentifier := JS.or_zero (t !! snapshotIdentifier) + 1]> t) w.

(** The world after the call has been counted for the test. *)
Definition counted (currentTestName : string) (w : World) : World :=
  with_snapshotState
    (SnapshotState.set_counters
       (<[currentTestName :=
            JS.or_zero (SnapshotState._counters (snapshotState w) !! currentTestName)
              + 1]> (SnapshotState._counters (snapshotState w))))
    w.

(** The world with [l] added to what was done. *)
Definition more_events (l : list Event) : World → World :=
  with_events (λ done, app done l).

(** ** What a computation keeps *)

(** A relation between the world before and the world after, kept by a
    computation however it ends. *)
Definition keeps {A : Type} (R : World → World → Prop) (m : M A) : Prop :=
  ∀ w, R w (m w).2.

(** Once the identifier is resolved, a call leaves the globals, the
    environment, the ledger and the per-test counters alone; it leaves the
    whole snapshot state alone when reporting is suppressed; and it only
    adds to the touched files and to the events. *)
Record later_frame (w w' : World) : Prop := mkLaterFrame {
  lf_flag : UNSTABLE_SKIP_REPORTING w' = UNSTABLE_SKIP_REPORTING w;
  lf_retry : RETRY_TIMES w' = RETRY_TIMES w;
  lf_env : process_env w' = process_env w;
  lf_ledger : timesCalled w' = timesCalled w;
  lf_touched : ∃ l, touchedFiles w' = app (touchedFiles w) l;
  lf_counters :
    SnapshotState._counters (snapshotState w')
      = SnapshotState._counters (snapshotState w);
  lf_mode :
    SnapshotState._updateSnapshot (snapshotState w')
      = SnapshotState._updateSnapshot (snapshotState w);
  lf_suppressed :
    UNSTABLE_SKIP_REPORTING w = true → snapshotState w' = snapshotState w;
  lf_events : ∃ l, events w' = app (events w) l;
}.

(** ** The resolver *)

(** The second piece of the test name, as the template renders it. *)
Definition leaf_title (currentTestName : string) : string :=
  JS.template (JS.split "..." currentTestName !! 1%nat).

Section ResolverTerms.

Context `{Imports}.

(** The slug [defaultIdentifier] of a call. *)
Definition default_identifier (testPath currentTestName : string) (w : World)
  : string :=
  kebabCase (basename testPath +:+ "-" +:+ currentTestName +:+ "-"
    +:+ JS.template_int
          (SnapshotState._counters (snapshotState w) !! currentTestName)).

(** The argument handed to a [customSnapshotIdentifier] function. *)
Definition identifier_args (testPath currentTestName : string) (w : World)
  : IdentifierArgs.t :=
  IdentifierArgs.mk testPath currentTestName
    (SnapshotState._counters (snapshotState w) !! currentTestName)
    (default_identifier testPath currentTestName w).

End ResolverTerms.

(** What the option [customSnapshotIdentifier] evaluates to in a call. *)
Definition custom_value `{Imports} (c : CustomSnapshotIdentifier)
    (testPath currentTestName : string) (w : World) : option string :=
  match c with
  | CsiUndefined => None
  | CsiString s => Some s
  | CsiFunction f => f (identifier_args testPath currentTestName w)
  end.

(** ** The constants and the stages of a call *)

Section CallTerms.

Context `{Imports}.
Context (common : Options.t) (this : This) (received : string)
        (options : Options.t) (io : Interaction).

(** The constants of one call, named as in the source. *)
Definition the_customSnapshotIdentifier : CustomSnapshotIdentifier :=
  match Options.customSnapshotIdentifier options with
  | CsiUndefined => Options.customSnapshotIdentifier common
  | c => c
  end.

Definition the_chalk : Chalk :=
  newChalk
    match pick_opt (Options.noColors options) (Options.noColors common) with
    | Some b => Some (if b : bool then 0 else 1)
    | None => None
    end.

Definition the_describeName : string :=
  JS.template (JS.split "..." (currentTestName this) !! 0%nat).

Definition the_snapshotsDir : string :=
  JS.or_else
    (pick_opt (Options.customSnapshotsDir options) (Options.customSnapshotsDir common))
    (join [dirname (testPath this); SNAPSHOTS_DIR; kebabCase the_describeName]).

Definition the_receivedDir : string :=
  JS.or_else
    (pick_opt (Options.customReceivedDir options) (Options.customReceivedDir common))
    (join [dirname (testPath this); RECEIVED_DIR; kebabCase the_describeName]).

Definition the_diffDir : string :=
  JS.or_else
    (pick_opt (Options.customDiffDir options) (Options.customDiffDir common))
    (join [dirname (testPath this); DIFF_DIR; kebabCase the_describeName]).

Definition the_receivedPostfix : string :=
  pick (Options.customReceivedPostfix options)
    (Options.customReceivedPostfix common) "-received".

Definition the_runInProcess : bool :=
  pick (Options.runInProcess options) (Options.runInProcess common) false.
Definition the_dumpDiffToConsole : bool :=
  pick (Options.dumpDiffToConsole options) (Options.dumpDiffToConsole common) false.
Definition the_dumpInlineDiffToConsole : bool :=
  pick (Options.dumpInlineDiffToConsole options)
    (Options.dumpInlineDiffToConsole common) false.
Definition the_allowSizeMismatch : bool :=
  pick (Options.allowSizeMismatch options) (Options.allowSizeMismatch common) false.

Definition baselineSnapshotPath (snapshotIdentifier : string) : string :=
  join [the_snapshotsDir; snapshotIdentifier +:+ ".png"].

Definition receivedSnapshotPath (snapshotIdentifier : string) : string :=
  join [the_receivedDir; snapshotIdentifier +:+ the_receivedPostfix +:+ ".png"].

Definition the_diffArgs (snapshotIdentifier updateSnapshot : string) : DiffArgs.t :=
  DiffArgs.mk received the_snapshotsDir
    (pick (Options.storeReceivedOnFailure options)
       (Options.storeReceivedOnFailure common) true)
    the_receivedDir the_receivedPostfix the_diffDir
    (pick (Options.diffDirection options) (Options.diffDirection common) "horizontal")
    (pick (Options.onlyDiff options) (Options.onlyDiff common) false)
    snapshotIdentifier
    (String.eqb updateSnapshot "all")
    (default ∅ (Options.customDiffConfig options)
       ∪ default ∅ (Options.customDiffConfig common))
    (pick (Options.failureThreshold options) (Options.failureThreshold common)
       (Number.of_Z 0))
    (pick (Options.failureThresholdType options)
       (Options.failureThresholdType common) "pixel")
    (pick (Options.updatePassedSnapshot options)
       (Options.updatePassedSnapshot common) false)
    (pick (Options.blur options) (Options.blur common) (Number.of_Z 0))
    the_allowSizeMismatch
    (pick (Options.comparisonMethod options) (Options.comparisonMethod common)
       "pixelmatch").

(** From the result of the comparison to the verdict. *)
Definition review_classify (retryTimes : Z) (snapshotIdentifier : string)
    (result : Result.t) : M Verdict :=
  receivedExists ← syncExists (receivedSnapshotPath snapshotIdentifier);
  result ←
    (if receivedExists : bool then
       review the_chalk (currentTestName this) snapshotIdentifier
         the_snapshotsDir the_receivedDir the_diffDir the_receivedPostfix
         io result
     else mret result);
  checkResult result retryTimes snapshotIdentifier the_chalk
    the_dumpDiffToConsole the_dumpInlineDiffToConsole the_allowSizeMismatch.

(** From the comparison to the verdict. *)
Definition compare_review_classify (retryTimes : Z)
    (snapshotIdentifier updateSnapshot : string) : M Verdict :=
  result ← run_engine the_runInProcess
              (the_diffArgs snapshotIdentifier updateSnapshot);
  review_classify retryTimes snapshotIdentifier result.

End CallTerms.

Section ComparisonTerms.

Context `{Imports}.
Context (common options : Options.t) (this : This) (received : string)
        (io : Interaction).

(** The call reaches the comparison under the identifier [id], and the
    comparison returns [result] and leaves the files [f]. *)
Definition compared_with (w : World) (id : string) (result : Result.t)
    (f : Files) : Prop :=
  isNot this = false
  ∧ (createSnapshotIdentifier (JS.or_zero (RETRY_TIMES w)) (testPath this)
       (currentTestName this) (the_customSnapshotIdentifier common options)
       (counted (currentTestName this) w)).1 = Normal id
  ∧ String.eqb (SnapshotState._updateSnapshot (snapshotState w)) "none"
      && negb (bool_decide
                 (is_Some (files w !! baselineSnapshotPath common this options id)))
    = false
  ∧ (if the_runInProcess common options
     then diffImageToSnapshot else runDiffImageToSnapshot)
      (the_diffArgs common this received options id
         (SnapshotState._updateSnapshot (snapshotState w)))
      (files w)
    = (Normal result, f).

(** The world in which the comparison leaves the call. *)
Definition compared_world (w : World) (id : string) (f : Files) : World :=
  with_files (λ _, f)
    (more_events [compare_images (the_runInProcess common options) id]
       (with_touchedFiles
          (λ l, app l [baselineSnapshotPath common this options id])
          (createSnapshotIdentifier (JS.or_zero (RETRY_TIMES w)) (testPath this)
             (currentTestName this) (the_customSnapshotIdentifier common options)
             (counted (currentTestName this) w)).2)).

End ComparisonTerms.

(** ** What the review shows *)

(** How a race ends when the prompt does not reject: the timer counts as
    [false]. *)
Definition settled (r : Race) : option bool :=
  match r with
  | Answered answer => Some answer
  | TimerFirst => Some false
  | Rejected _ => None
  end.

Definition announcement (chalk : Chalk) (currentTestName : string) : list Event :=
  [ notify "Snapshot test failed!" ("Received diff for " +:+ currentTestName)
      false false true;
    stdout_write
      (JS.LF +:+ bgCyan chalk ("Received difference for " +:+ currentTestName)
         +:+ JS.LF) ].

Definition view_prompt (diffDir snapshotIdentifier : string) (viewAction : bool)
  : list Event :=
  [ set_timeout 60000;
    confirm_run "View Question" "Do you want to view the diff in your browser?";
    if viewAction
    then exec ("open -a " +:+ JS.chr 34 +:+ "Google Chrome file://"
                 +:+ diffDir +:+ "/" +:+ snapshotIdentifier +:+ "-diff.png")
    else confirm_stop "View Question" ].

Definition update_prompt (snapshotIdentifier : string) : list Event :=
  [ set_timeout 60000;
    confirm_run "Update Question"
      ("Do you want to update " +:+ snapshotIdentifier +:+ "?") ].

(** Is the event one of the review: the notification, the line on the
    terminal, a timer, a prompt or the browser; the call of the comparison
    is the only event that is not. *)
Definition review_event (e : Event) : bool :=
  match e with
  | compare_images _ _ => false
  | notify _ _ _ _ _ => true
  | stdout_write _ => true
  | set_timeout _ => true
  | confirm_run _ _ => true
  | confirm_stop _ => true
  | exec _ => true
  end.

(** Everything the review step shows up to the answer to the second
    prompt. *)
Definition review_shown (chalk : Chalk) (currentTestName snapshotIdentifier
    diffDir : string) (viewAction : bool) : list Event :=
  app (announcement chalk currentTestName)
    (app (view_prompt diffDir snapshotIdentifier viewAction)
       (update_prompt snapshotIdentifier)).

(** ** The text of a message *)

(** Does the environment ask for the inline image: a terminal of the list,
    or the variable [ENABLE_INLINE_DIFF], whatever its value. *)
Definition inline_capable (env : gmap string string) : bool :=
  match env !! "TERM_PROGRAM" with
  | Some term => bool_decide (term ∈ supportedInlineTerms)
  | None => false
  end
  || bool_decide (is_Some (env !! "ENABLE_INLINE_DIFF")).

(** What follows the pointer to the diff. *)
Definition dump_text (result : Result.t) (chalk : Chalk) (dump inline : bool)
    (env : gmap string string) : string :=
  if inline && inline_capable env then inline_diff result
  else if dump || inline then paste_diff chalk result
  else EmptyString.

(** The text of the message in the environment [env]. *)
Definition failure_text (result : Result.t) (chalk : Chalk)
    (dump inline allow : bool) (env : gmap string string) : string :=
  ((if Result.diffSize result && negb allow
    then size_failure (Result.imageDimensions result)
    else percentage_failure
           (Number.mul (Result.diffRatio result) (Number.of_Z 100))
           (Result.diffPixelCount result))
     +:+ see_diff chalk (Result.diffOutputPath result))
    +:+ dump_text result chalk dump inline env.

(** A width and a height as the size sentence quotes them. *)
Definition pair_text (width height : Number.t) : string :=
  "(" +:+ Number.toString width +:+ "x" +:+ Number.toString height +:+ ")".

(** [n] calls of a closure in a row, with what each returned. *)
Fixpoint call_times (n : nat) (m : M string) (w : World)
  : list (Completion string) * World :=
  match n with
  | O => ([], w)
  | S k =>
      let '(r, w1) := m w in
      let '(rs, w2) := call_times k m w1 in
      (r :: rs, w2)
  end.

(** ** The outcomes of a call *)

Section OutcomeTerms.

Context `{Imports}.

(** The rule for a missing baseline as the specification words it: a
    failing verdict with the two phrases in its message, and a snapshot
    state left as it was. *)
Definition missing_baseline_outcome (unchanged : bool)
    (common options : Options.t) (this : This) (received : string)
    (io : Interaction) (w : World) : Prop :=
  ∃ v w',
    configureToMatchImageSnapshot common this received options io w
      = (Normal v, w')
    ∧ pass v = false
    ∧ (∀ wr, ∃ text,
         message v wr = (Normal text, wr)
         ∧ JS.Includes "not written" text
         ∧ JS.Includes "continuous integration" text)
    ∧ (if unchanged then snapshotState w' = snapshotState w
       else snapshotState w' = snapshotState (counted (currentTestName this) w))
    ∧ files w' = files w
    ∧ events w' = events w.

End OutcomeTerms.

(** ** The sessions of the examples *)

(** A failed comparison: 2.3% of the pixels differ, 45 of them. *)
Definition r_fail : Result.t :=
  Result.mk false false false false (Number.ratio 23 1000) (Number.of_Z 45)
    (Result.mkDimensions (Number.of_Z 800) (Number.of_Z 600)
       (Number.of_Z 640) (Number.of_Z 480))
    "/p/__diff_output/login/shows the form-snap-diff.png"
    "data:image/png;base64,AAAA".

(** A comparison that passes. *)
Definition r_pass : Result.t :=
  Result.mk false false true false (Number.of_Z 0) (Number.of_Z 0)
    (Result.mkDimensions (Number.of_Z 800) (Number.of_Z 600)
       (Number.of_Z 800) (Number.of_Z 600))
    "" "".

(** A chalk without colours. *)
Definition plain : Chalk := Sample.newChalk (Some 0).

(** A fresh session: nothing counted, no file, no retry. *)
Definition fresh (updateSnapshot : string) : World :=
  mkWorld false None ∅ ∅ (SnapshotState.mk 0 0 0 0 ∅ updateSnapshot) ∅ [] [].

(** The same session with [global.UNSTABLE_SKIP_REPORTING] set. *)
Definition suppressed (w : World) : World :=
  mkWorld true (RETRY_TIMES w) (process_env w) (timesCalled w)
    (snapshotState w) (files w) (touchedFiles w) (events w).

(** A session in which the test [name] has made [n] calls. *)
Definition counting (name : string) (n : Z) : World :=
  mkWorld false None ∅ ∅ (SnapshotState.mk 0 0 0 0 {[name := n]} "new") ∅ [] [].

(** The same session in iTerm. *)
Definition in_iTerm (w : World) : World :=
  mkWorld (UNSTABLE_SKIP_REPORTING w) (RETRY_TIMES w)
    (<["TERM_PROGRAM" := "iTerm.app"]> (process_env w))
    (timesCalled w) (snapshotState w) (files w) (touchedFiles w) (events w).

(** The same session under [jest.retryTimes(n)]. *)
Definition retrying (n : Z) (w : World) : World :=
  mkWorld (UNSTABLE_SKIP_REPORTING w) (Some n) (process_env w) (timesCalled w)
    (snapshotState w) (files w) (touchedFiles w) (events w).

(** The test of the examples, and the files of its first snapshot. *)
Definition login_test : This := mkThis "/p/a.spec.js" "login...shows the form" false.

Definition baseline_file : string :=
  "/p/__image_snapshots__/login/shows the form-snap.png".

Definition received_file : string :=
  "/p/__received_snapshots__/login/shows the form-snap-received.png".

(** A session with the baseline of [login_test] on storage. *)
Definition with_baseline (w : World) : World :=
  with_files (insert baseline_file "baseline") w.

(** Both timers fire first; the update is confirmed. *)
Definition no_prompt : Interaction := mkInteraction TimerFirst TimerFirst.

Definition update_confirmed : Interaction := mkInteraction TimerFirst (Answered true).

(** Options that set [customSnapshotIdentifier], or [runInProcess]. *)
Definition identified_by (c : CustomSnapshotIdentifier) : Options.t :=
  Options.mk None c None None None None None None None None None None
    None None None None None None None.

Definition in_process : Options.t :=
  Options.mk None CsiUndefined None None None None None None None None None None
    None None (Some true) None None None None.

(** The comparison fails and writes the received file. *)
Definition failing : Imports :=
  Sample.imports (Sample.writes received_file "received" r_fail).

(** The comparison passes and writes nothing. *)
Definition passing : Imports := Sample.imports (Sample.returns r_pass).

(** ** The rules as the specification words them *)

(** The rule for [unmatched] as the specification words it: no increment
    while retries are active and the ledger count is at most [retryTimes];
    one increment once retries are off or the count exceeds [retryTimes]. *)
Definition unmatched_rule_as_specified : Prop :=
  ∀ (result : Result.t) (retryTimes : Z) (snapshotIdentifier : string)
    (chalk : Chalk) (dump inline allow : bool) (w : World),
    Result.compared result = true →
    Result.pass result = false →
    let w' := (checkResult result retryTimes snapshotIdentifier
                 chalk dump inline allow w).2 in
    (retryTimes ≠ 0 →
     (∃ n, timesCalled w !! snapshotIdentifier = Some n ∧ n ≤ retryTimes) →
     SnapshotState.unmatched (snapshotState w')
       = SnapshotState.unmatched (snapshotState w))
    ∧ (retryTimes = 0
       ∨ (∃ n, timesCalled w !! snapshotIdentifier = Some n ∧ retryTimes < n) →
       SnapshotState.unmatched (snapshotState w')
         = SnapshotState.unmatched (snapshotState w) + 1).

(** The rule as the specification words it: under retries a resolution that
    does not throw had a custom identifier, non-empty, and not attempted
    before. *)
Definition retry_rule_as_specified : Prop :=
  ∀ (I : Imports) (retryTimes : Z) (testPath name : string)
    (c : CustomSnapshotIdentifier) (w w' : World) (id : string),
    1 ≤ retryTimes →
    createSnapshotIdentifier retryTimes testPath name c w = (Normal id, w') →
    custom_value c testPath name w = Some id
    ∧ JS.truthy id = true
    ∧ timesCalled w !! id = None.

(** The rule for a missing baseline with the snapshot state left as it
    was, for every call. *)
Definition missing_baseline_as_specified : Prop :=
  ∀ (I : Imports) (common options : Options.t) (this : This) (received : string)
    (io : Interaction) (w w2 : World) (id : string),
    isNot this = false →
    createSnapshotIdentifier (JS.or_zero (RETRY_TIMES w)) (testPath this)
      (currentTestName this) (the_customSnapshotIdentifier common options)
      (counted (currentTestName this) w) = (Normal id, w2) →
    SnapshotState._updateSnapshot (snapshotState w) = "none" →
    files w !! baselineSnapshotPath common this options id = None →
    missing_baseline_outcome true common options this received io w.

(** The rule as the specification words it: the calls of the message of a
    failed comparison change nothing and return the same text, which is
    fixed by what the closure captured. *)
Definition message_pure_as_specified : Prop :=
  ∀ (result : Result.t) (retryTimes : Z) (id : string) (chalk : Chalk)
    (dump inline allow : bool) (w : World),
    Result.compared result = true →
    Result.pass result = false →
    ∃ v,
      (checkResult result retryTimes id chalk dump inline allow w).1 = Normal v
      ∧ (∀ n wr, ∃ text,
           call_times n (message v) wr = (replicate n (Normal text), wr))
      ∧ (∀ w1 w2, (message v w1).1 = (message v w2).1).

(** ** The vocabulary of the further properties *)

(** Only storage and the events differ: the relation kept by the comparison
    and by the review. *)
Record outside_only (w w' : World) : Prop := mkOutsideOnly {
  oo_flag : UNSTABLE_SKIP_REPORTING w' = UNSTABLE_SKIP_REPORTING w;
  oo_retry : RETRY_TIMES w' = RETRY_TIMES w;
  oo_env : process_env w' = process_env w;
  oo_ledger : timesCalled w' = timesCalled w;
  oo_state : snapshotState w' = snapshotState w;
  oo_touched : touchedFiles w' = touchedFiles w;
}.

(** The four outcome counters together. *)
Definition counter_sum (s : SnapshotState.t) : Z :=
  SnapshotState.matched s + SnapshotState.added s
    + SnapshotState.updated s + SnapshotState.unmatched s.

(** The options of a call laid over those of a configuration: a field of
    the call wins when it is present, and the two [customDiffConfig] are
    joined, the call's entries first. *)
Definition override (options common : Options.t) : Options.t :=
  Options.mk
    (Some (default ∅ (Options.customDiffConfig options)
             ∪ default ∅ (Options.customDiffConfig common)))
    match Options.customSnapshotIdentifier options with
    | CsiUndefined => Options.customSnapshotIdentifier common
    | c => c
    end
    (pick_opt (Options.customSnapshotsDir options) (Options.customSnapshotsDir common))
    (pick_opt (Options.storeReceivedOnFailure options)
       (Options.storeReceivedOnFailure common))
    (pick_opt (Options.customReceivedDir options) (Options.customReceivedDir common))
    (pick_opt (Options.customReceivedPostfix options)
       (Options.customReceivedPostfix common))
    (pick_opt (Options.customDiffDir options) (Options.customDiffDir common))
    (pick_opt (Options.onlyDiff options) (Options.onlyDiff common))
    (pick_opt (Options.diffDirection options) (Options.diffDirection common))
    (pick_opt (Options.noColors options) (Options.noColors common))
    (pick_opt (Options.failureThreshold options) (Options.failureThreshold common))
    (pick_opt (Options.failureThresholdType options)
       (Options.failureThresholdType common))
    (pick_opt (Options.updatePassedSnapshot options)
       (Options.updatePassedSnapshot common))
    (pick_opt (Options.blur options) (Options.blur common))
    (pick_opt (Options.runInProcess options) (Options.runInProcess common))
    (pick_opt (Options.dumpDiffToConsole options) (Options.dumpDiffToConsole common))
    (pick_opt (Options.dumpInlineDiffToConsole options)
       (Options.dumpInlineDiffToConsole common))
    (pick_opt (Options.allowSizeMismatch options) (Options.allowSizeMismatch common))
    (pick_opt (Options.comparisonMethod options) (Options.comparisonMethod common)).

(** One matcher call: the configuration of the matcher, the receiver, the
    image, the options and how the prompts end. *)
Record Call : Type := mkCall {
  call_common : Options.t;
  call_this : This;
  call_received : string;
  call_options : Options.t;
  call_io : Interaction;
}.

(** The world after a call, and after a series of calls, whatever they
    returned or threw. *)
Definition after_call `{Imports} (c : Call) (w : World) : World :=
  (configureToMatchImageSnapshot (call_common c) (call_this c)
     (call_received c) (call_options c) (call_io c) w).2.

Definition after_calls `{Imports} (cs : list Call) (w : World) : World :=
  fold_left (λ w c, after_call c w) cs w.

(** Is the call a call of the test [name] that is not negated. *)
Definition counts_for (name : string) (c : Call) : bool :=
  negb (isNot (call_this c)) && String.eqb (currentTestName (call_this c)) name.

(** No character of the string is a dot. *)
Fixpoint no_dot (s : string) : bool :=
  match s with
  | EmptyString => true
  | String c s' => negb (Ascii.eqb c ".") && no_dot s'
  end.

(** A comparison that cannot run. *)
Definition crashing : Imports :=
  Sample.imports (λ _ f, (Thrown "spawn ENOENT", f)).

(** The options without a [customSnapshotIdentifier]. *)
Definition without_identifier (o : Options.t) : Options.t :=
  Options.mk (Options.customDiffConfig o) CsiUndefined
    (Options.customSnapshotsDir o) (Options.storeReceivedOnFailure o)
    (Options.customReceivedDir o) (Options.customReceivedPostfix o)
    (Options.customDiffDir o) (Options.onlyDiff o) (Options.diffDirection o)
    (Options.noColors o) (Options.failureThreshold o)
    (Options.failureThresholdType o) (Options.updatePassedSnapshot o)
    (Options.blur o) (Options.runInProcess o) (Options.dumpDiffToConsole o)
    (Options.dumpInlineDiffToConsole o) (Options.allowSizeMismatch o)
    (Options.comparisonMethod o).

(** The comparison of a call: the function chosen by [runInProcess], on
    the arguments of the call. *)
Definition the_comparison `{Imports} (common options : Options.t) (this : This)
    (received : string) (id : string) (w : World) : Completion Result.t * Files :=
  (if the_runInProcess common options
   then diffImageToSnapshot else runDiffImageToSnapshot)
    (the_diffArgs common this received options id
       (SnapshotState._updateSnapshot (snapshotState w)))
    (files w).

(** Is the call answered, without a comparison, that the baseline is
    missing. *)
Definition baseline_missing `{Imports} (common options : Options.t) (this : This)
    (id : string) (w : World) : bool :=
  String.eqb (SnapshotState._updateSnapshot (snapshotState w)) "none"
    && negb (bool_decide
               (is_Some (files w !! baselineSnapshotPath common this options id))).

(* ===================================================================== *)
(** * The runtime on examples                                             *)
(* ===================================================================== *)

(** The literal [0.023] is the double [0x1.78d4fdf3b645ap-6]. *)
Example literal_0_023 :
  Number.ratio 23 1000 = S754_finite false 0x178d4fdf3b645a (-58).
Proof. vm_compute. reflexivity. Qed.

Example toString_cases :
  map Number.toString
    [ Number.ratio 23 1000;
      Number.mul (Number.ratio 23 1000) (Number.of_Z 100);
      Number.mul (Number.ratio 7 100) (Number.of_Z 100);
      Number.ratio 1 3;
      Number.of_Z 45;
      Number.of_Z (10 ^ 21);
      Number.of_Z 123456789012345678901;
      Number.ratio 1 1000000;
      Number.ratio 1 10000000;
      Number.ratio (-5) 2;
      Number.ratio 1 0;
      Number.ratio 0 0 ]
  = [ "0.023"; "2.3"; "7.000000000000001"; "0.3333333333333333"; "45";
      "1e+21"; "123456789012345680000"; "0.000001"; "1e-7"; "-2.5";
      "Infinity"; "NaN" ].
Proof. vm_compute. reflexivity. Qed.

Example split_cases :
  map (JS.split "...")
    [ "login...shows the form"; "a...b...c"; "a....b"; "plain"; "a..."; "" ]
  = [ ["login"; "shows the form"]; ["a"; "b"; "c"]; ["a"; ".b"]; ["plain"];
      ["a"; ""]; [""] ].
Proof. reflexivity. Qed.

Example base64_cases :
  map JS.base64 ["Man"; "Ma"; "M"; "/tmp/diff/x-diff.png"]
  = ["TWFu"; "TWE="; "TQ=="; "L3RtcC9kaWZmL3gtZGlmZi5wbmc="].
Proof. reflexivity. Qed.

Example remove_first_cases :
  map (JS.remove_first "data:image/png;base64,")
    [ "data:image/png;base64,AAAA"; "AAAA";
      "x data:image/png;base64,y data:image/png;base64,z" ]
  = ["AAAA"; "AAAA"; "x y data:image/png;base64,z"].
Proof. reflexivity. Qed.

(* ===================================================================== *)
(** * Running computations                                                *)
(* ===================================================================== *)

Section Running.

Context {A B : Type}.

Lemma run_bind (m : M A) (f : A → M B) (w : World) :
  (m ≫= f) w =
    match m w with
    | (Normal a, w') => f a w'
    | (Thrown e, w') => (Thrown e, w')
    end.
Proof. reflexivity. Qed.

Lemma bind_normal (m : M A) (f : A → M B) (w w' : World) (a : A) :
  m w = (Normal a, w') → (m ≫= f) w = f a w'.
Proof. intros E. rewrite run_bind, E. reflexivity. Qed.

End Running.

(** Unfolding of the primitive computations, for goals about a run. *)
Ltac run_prim :=
  cbv beta iota zeta delta
    [mbind M_bind mret M_ret gets modify throw emit] in *.

Section Keeps.

Context (R : World → World → Prop) `{!PreOrder R}.

Lemma keeps_ret {A} (a : A) : keeps R (mret a).
Proof. intros w. simpl. reflexivity. Qed.

Lemma keeps_throw {A} (e : string) : keeps R (throw (A:=A) e).
Proof. intros w. simpl. reflexivity. Qed.

Lemma keeps_gets {A} (f : World → A) : keeps R (gets f).
Proof. intros w. simpl. reflexivity. Qed.

Lemma keeps_bind {A B} (m : M A) (f : A → M B) :
  keeps R m → (∀ a, keeps R (f a)) → keeps R (m ≫= f).
Proof.
  intros Hm Hf w. rewrite run_bind.
  specialize (Hm w). destruct (m w) as [[a|e] w1]; simpl in *.
  - etransitivity; [exact Hm | apply Hf].
  - exact Hm.
Qed.

End Keeps.

(* ===================================================================== *)
(** * The state tracker: [updateSnapshotState] and [checkResult]          *)
(* ===================================================================== *)

Lemma updateSnapshotState_run (p : SnapshotState.partial) (w : World) :
  updateSnapshotState p w = (Normal (snapshotState (merged p w)), merged p w).
Proof.
  unfold updateSnapshotState, merged. run_prim.
  destruct (UNSTABLE_SKIP_REPORTING w); reflexivity.
Qed.

(** The outcome of [checkResult] on a failed comparison. *)
Lemma checkResult_failed_run (result : Result.t) (retryTimes : Z)
    (snapshotIdentifier : string) (chalk : Chalk) (dump inline allow : bool)
    (w : World) :
  Result.updated result = false →
  Result.added result = false →
  Result.pass result = false →
  checkResult result retryTimes snapshotIdentifier chalk dump inline allow w =
    (Normal (mkVerdict
               (failure_message result
                  (Number.mul (Result.diffRatio result) (Number.of_Z 100))
                  chalk dump inline allow)
               false),
     if (retryTimes =? 0) || JS.gt (timesCalled w !! snapshotIdentifier) retryTimes
     then merged (SnapshotState.only_unmatched
                    (SnapshotState.unmatched (snapshotState w) + 1)) w
     else w).
Proof.
  intros Hu Ha Hp. unfold checkResult.
  rewrite (bind_normal _ _ w w (snapshotState w)) by reflexivity.
  rewrite Hu, Ha, Hp.
  rewrite (bind_normal _ _ w w (timesCalled w !! snapshotIdentifier)) by reflexivity.
  destruct ((retryTimes =? 0) || JS.gt (timesCalled w !! snapshotIdentifier) retryTimes).
  - rewrite run_bind, run_bind, updateSnapshotState_run. reflexivity.
  - reflexivity.
Qed.

(** C1, as stated, fails: with [global.UNSTABLE_SKIP_REPORTING] set and
    retries off, a failed comparison leaves [unmatched] as it was. *)
Lemma unmatched_rule_as_specified_fails : ¬ unmatched_rule_as_specified.
Proof.
  intros Hclaim.
  destruct (Hclaim r_fail 0 "t-snap" plain false false false
              (suppressed (fresh "new")) eq_refl eq_refl) as [_ Hinc].
  specialize (Hinc (or_introl eq_refl)). vm_compute in Hinc. discriminate.
Qed.

(** C1 (amended): for a failed comparison, [checkResult] returns
    [pass = false] and touches nothing but the snapshot state; [unmatched]
    is not incremented while retries are active and the ledger count of the
    identifier is at most [retryTimes]; it is incremented by exactly one,
    the other counters staying put, once retries are off or the count
    exceeds [retryTimes], provided [global.UNSTABLE_SKIP_REPORTING] is not
    set; when it is set, the snapshot state is left as it was. *)
Theorem unmatched_deferred_until_retries_exhausted
    (result : Result.t) (retryTimes : Z) (snapshotIdentifier : string)
    (chalk : Chalk) (dump inline allow : bool) (w : World) :
  Result.compared result = true →
  Result.pass result = false →
  let run := checkResult result retryTimes snapshotIdentifier
               chalk dump inline allow w in
  let before := snapshotState w in
  let after := snapshotState run.2 in
  (∃ v, run.1 = Normal v ∧ pass v = false)
  ∧ run.2 = with_snapshotState (λ _, after) w
  ∧ (retryTimes ≠ 0 →
     (∃ n, timesCalled w !! snapshotIdentifier = Some n ∧ n ≤ retryTimes) →
     after = before)
  ∧ (UNSTABLE_SKIP_REPORTING w = false →
     retryTimes = 0
     ∨ (∃ n, timesCalled w !! snapshotIdentifier = Some n ∧ retryTimes < n) →
     after = SnapshotState.mk
               (SnapshotState.matched before) (SnapshotState.added before)
               (SnapshotState.updated before)
               (SnapshotState.unmatched before + 1)
               (SnapshotState._counters before)
               (SnapshotState._updateSnapshot before))
  ∧ (UNSTABLE_SKIP_REPORTING w = true → after = before).
Proof.
  intros Hc Hp run before after. subst run before after.
  unfold Result.compared in Hc. apply andb_true_iff in Hc as [Hu Ha].
  apply negb_true_iff in Hu, Ha.
  rewrite (checkResult_failed_run _ _ _ _ _ _ _ _ Hu Ha Hp). cbn [fst snd].
  split; [eexists; split; [reflexivity | reflexivity] |].
  destruct w as [skip rt env tc st fs tf ev]; cbn [timesCalled snapshotState
    UNSTABLE_SKIP_REPORTING].
  split; [| split; [| split]].
  - unfold merged. cbn. destruct (_ || _), skip; reflexivity.
  - intros Hrt [n [Hn Hle]]. rewrite Hn. cbn [JS.gt].
    replace (retryTimes =? 0) with false by (symmetry; apply Z.eqb_neq; exact Hrt).
    replace (retryTimes <? n) with false by (symmetry; apply Z.ltb_ge; exact Hle).
    reflexivity.
  - intros -> Hcond.
    assert ((retryTimes =? 0) || JS.gt (tc !! snapshotIdentifier) retryTimes = true) as ->.
    { destruct Hcond as [-> | [n [-> Hlt]]]; [reflexivity |].
      cbn [JS.gt]. apply orb_true_iff. right. apply Z.ltb_lt. exact Hlt. }
    destruct st; reflexivity.
  - intros ->. unfold merged. cbn. destruct (_ || _); reflexivity.
Qed.

(** The theorem at a failed comparison in a fresh session without retries:
    [unmatched] goes from 0 to 1. *)
Lemma unmatched_deferred_until_retries_exhausted_witness :
  SnapshotState.unmatched
    (snapshotState (checkResult r_fail 0 "t-snap" plain false false false
                      (fresh "new")).2) = 1.
Proof.
  destruct (unmatched_deferred_until_retries_exhausted
              r_fail 0 "t-snap" plain false false false (fresh "new")
              eq_refl eq_refl) as (_ & _ & _ & Hinc & _).
  rewrite (Hinc eq_refl (or_introl eq_refl)). reflexivity.
Defined.

(* ===================================================================== *)
(** * The identifier resolver: [createSnapshotIdentifier]                 *)
(* ===================================================================== *)

Section Resolver.

Context `{Imports}.

(** Without retries the resolver never throws and changes nothing. *)
Lemma resolve_without_retries (testPath currentTestName : string)
    (c : CustomSnapshotIdentifier) (w : World) :
  createSnapshotIdentifier 0 testPath currentTestName c w =
    (Normal
       match c with
       | CsiUndefined => leaf_title currentTestName +:+ "-snap"
       | CsiString s => JS.or_else (Some s) (leaf_title currentTestName +:+ "-snap")
       | CsiFunction f =>
           JS.or_else (f (identifier_args testPath currentTestName w))
             (default_identifier testPath currentTestName w)
       end, w).
Proof. destruct c; reflexivity. Qed.

(** With retries the resolver throws when the option is absent or is the
    empty string, or is a function whose result is absent or empty;
    otherwise it returns the custom identifier and counts the attempt. *)
Lemma resolve_with_retries (retryTimes : Z) (testPath currentTestName : string)
    (c : CustomSnapshotIdentifier) (w : World) :
  retryTimes ≠ 0 →
  createSnapshotIdentifier retryTimes testPath currentTestName c w =
    match c with
    | CsiUndefined => (Thrown retry_error, w)
    | CsiString s =>
        if JS.truthy s then (Normal s, attempted s w)
        else (Thrown retry_error, w)
    | CsiFunction f =>
        match f (identifier_args testPath currentTestName w) with
        | Some s =>
            if JS.truthy s then (Normal s, attempted s w)
            else (Thrown retry_error, w)
        | None => (Thrown retry_error, w)
        end
    end.
Proof.
  intros Hrt. apply Z.eqb_neq in Hrt.
  unfold createSnapshotIdentifier.
  rewrite (bind_normal _ _ w w
             (SnapshotState._counters (snapshotState w) !! currentTestName))
    by reflexivity.
  rewrite Hrt. cbn [negb andb].
  destruct c as [| s | f].
  - reflexivity.
  - destruct s; reflexivity.
  - fold (default_identifier testPath currentTestName w).
    fold (identifier_args testPath currentTestName w).
    destruct (f (identifier_args testPath currentTestName w)) as [[|a s]|];
      reflexivity.
Qed.

End Resolver.

(** ** Strings that end alike *)

Lemma append_cons (c : ascii) (s t : string) :
  String c s +:+ t = String c (s +:+ t).
Proof. reflexivity. Qed.

Lemma length_append (s t : string) :
  String.length (s +:+ t) = (String.length s + String.length t)%nat.
Proof.
  induction s as [|c s IH]; [reflexivity |].
  rewrite append_cons. cbn [String.length]. rewrite IH. reflexivity.
Qed.

Lemma append_cancel_r (t s1 s2 : string) : s1 +:+ t = s2 +:+ t → s1 = s2.
Proof.
  revert s2. induction s1 as [|c s1 IH]; intros [|d s2] E.
  - reflexivity.
  - apply (f_equal String.length) in E.
    rewrite !length_append in E. cbn [String.length] in E. lia.
  - apply (f_equal String.length) in E.
    rewrite !length_append in E. cbn [String.length] in E. lia.
  - rewrite !append_cons in E. injection E as -> E. f_equal. apply IH, E.
Qed.

(** ** The default identifier *)

(** C3: without a custom identifier and without retries the resolver
    returns, without error and without touching anything, the second piece
    of the test name cut at ["..."] followed by ["-snap"].  The invocation
    counter does not enter the identifier, nor the test file, nor the
    describe-block piece: two calls resolve to the same identifier exactly
    when their second pieces agree, so two assertions of one test, and two
    tests that differ in the describe block only, are not told apart.  The
    slug [defaultIdentifier], which every call computes from the test file,
    the whole test name and the counter, is what the sibling path returns:
    a custom function without result falls back to it. *)
Theorem default_identifier_drops_the_counter `{Imports}
    (testPath1 testPath2 name1 name2 : string) (w1 w2 : World) :
  createSnapshotIdentifier 0 testPath1 name1 CsiUndefined w1
    = (Normal (leaf_title name1 +:+ "-snap"), w1)
  ∧ ((createSnapshotIdentifier 0 testPath1 name1 CsiUndefined w1).1
       = (createSnapshotIdentifier 0 testPath2 name2 CsiUndefined w2).1
     ↔ leaf_title name1 = leaf_title name2)
  ∧ createSnapshotIdentifier 0 testPath1 name1 (CsiFunction (λ _, None)) w1
    = (Normal
         (kebabCase
            (basename testPath1 +:+ "-" +:+ name1 +:+ "-"
               +:+ JS.template_int
                     (SnapshotState._counters (snapshotState w1) !! name1))),
       w1).
Proof.
  rewrite !resolve_without_retries. cbn [fst].
  split; [reflexivity |]. split; [| reflexivity]. split.
  - intros E. injection E as E. apply (append_cancel_r "-snap"), E.
  - intros ->. reflexivity.
Qed.

(** The theorem at the first and the second assertion of the test
    ["login...shows the form"] and at the first assertion of
    ["signup...shows the form"]: all three resolve to
    ["shows the form-snap"], while the slug of the sibling path tells the
    two assertions apart. *)
Lemma default_identifier_drops_the_counter_witness :
  let I := Sample.imports (Sample.returns r_fail) in
  let resolved name c n :=
    (createSnapshotIdentifier 0 "/p/a.spec.js" name c (counting name n)).1 in
  resolved "login...shows the form" CsiUndefined 1 = Normal "shows the form-snap"
  ∧ resolved "login...shows the form" CsiUndefined 2 = Normal "shows the form-snap"
  ∧ resolved "signup...shows the form" CsiUndefined 1 = Normal "shows the form-snap"
  ∧ resolved "login...shows the form" (CsiFunction (λ _, None)) 1
    = Normal "a-spec-js-login-shows-the-form-1"
  ∧ resolved "login...shows the form" (CsiFunction (λ _, None)) 2
    = Normal "a-spec-js-login-shows-the-form-2".
Proof.
  intros I resolved. subst resolved. cbv beta.
  destruct (@default_identifier_drops_the_counter I "/p/a.spec.js" "/p/a.spec.js"
              "login...shows the form" "login...shows the form"
              (counting "login...shows the form" 1)
              (counting "login...shows the form" 2))
    as (Hfirst & _ & Hslug).
  destruct (@default_identifier_drops_the_counter I "/p/a.spec.js" "/p/a.spec.js"
              "login...shows the form" "signup...shows the form"
              (counting "login...shows the form" 2)
              (counting "signup...shows the form" 1))
    as (Hsecond & _ & Hslug').
  destruct (@default_identifier_drops_the_counter I "/p/a.spec.js" "/p/a.spec.js"
              "signup...shows the form" "login...shows the form"
              (counting "signup...shows the form" 1)
              (counting "login...shows the form" 1))
    as (Hother & _ & _).
  rewrite Hfirst, Hsecond, Hother, Hslug, Hslug'.
  repeat split; vm_compute; reflexivity.
Defined.

(** ** Retries *)

(** C4, as stated, fails: with [retryTimes = 1] the literal identifier
    ["home"] resolves a second time, without error, after a first attempt
    under the same identifier. *)
Lemma retry_rule_as_specified_fails : ¬ retry_rule_as_specified.
Proof.
  intros Hclaim.
  pose (I := Sample.imports (Sample.returns r_fail)).
  pose (w1 := (createSnapshotIdentifier 1 "/p/a.spec.js" "d...t"
                 (CsiString "home") (fresh "new")).2).
  destruct (Hclaim I 1 "/p/a.spec.js" "d...t" (CsiString "home")
              w1 (attempted "home" w1) "home") as (_ & _ & Hfresh).
  - lia.
  - reflexivity.
  - vm_compute in Hfresh. discriminate.
Qed.

(* ===================================================================== *)
(** * The matcher, step by step                                           *)
(* ===================================================================== *)

Section MatcherRun.

Context `{Imports}.
Context (common : Options.t) (this : This) (received : string)
        (options : Options.t) (io : Interaction).

Lemma count_invocation_run (name : string) (w : World) :
  count_invocation name w = (Normal tt, counted name w).
Proof.
  unfold count_invocation.
  rewrite (bind_normal _ _ w w (SnapshotState._counters (snapshotState w)))
    by reflexivity.
  cbv zeta. rewrite run_bind. cbn [modify].
  rewrite run_bind, updateSnapshotState_run. unfold merged, counted.
  destruct w as [[] rt env tc [m a u un c us] fs tf ev]; reflexivity.
Qed.

(** The matcher, cut at its branching points. *)
Lemma matcher_run (w : World) :
  configureToMatchImageSnapshot common this received options io w =
    if isNot this then (Thrown not_error, w)
    else
      let retryTimes := JS.or_zero (RETRY_TIMES w) in
      match
        createSnapshotIdentifier retryTimes (testPath this)
          (currentTestName this) (the_customSnapshotIdentifier common options)
          (counted (currentTestName this) w)
      with
      | (Thrown e, w2) => (Thrown e, w2)
      | (Normal snapshotIdentifier, w2) =>
          let w3 :=
            with_touchedFiles
              (λ l, app l [baselineSnapshotPath common this options
                                snapshotIdentifier]) w2 in
          let updateSnapshot := SnapshotState._updateSnapshot (snapshotState w3) in
          if String.eqb updateSnapshot "none"
             && negb (bool_decide
                        (is_Some (files w3 !! baselineSnapshotPath common this
                                               options snapshotIdentifier)))
          then (Normal (mkVerdict (missing_baseline_message
                                     (the_chalk common options)) false), w3)
          else compare_review_classify common this received options io
                 retryTimes snapshotIdentifier updateSnapshot w3
      end.
Proof.
  unfold configureToMatchImageSnapshot. cbv zeta.
  rewrite (bind_normal _ _ w w (JS.or_zero (RETRY_TIMES w))) by reflexivity.
  destruct (isNot this); [reflexivity |].
  rewrite (bind_normal _ _ w w tt) by reflexivity.
  rewrite (bind_normal _ _ _ _ _ (count_invocation_run _ w)).
  rewrite run_bind.
  fold (the_customSnapshotIdentifier common options).
  destruct (createSnapshotIdentifier _ _ _ _ _) as [[id|e] w2];
    [| reflexivity].
  unfold markTouchedFile, existsSync.
  cbv beta iota zeta delta [mbind M_bind gets modify].
  destruct (String.eqb _ _ && negb _); reflexivity.
Qed.

End MatcherRun.

(* ===================================================================== *)
(** * The review step                                                     *)
(* ===================================================================== *)

(** The body of the conditional of line 248, taken alone: what it does
    when it runs.  A matcher call does not get there, since the condition
    throws. *)

Section Review.

Context `{Imports}.
Context (chalk : Chalk) (name id snapshotsDir receivedDir diffDir postfix : string).

Let moved_from : string := join [receivedDir; id +:+ postfix +:+ ".png"].
Let moved_to : string := join [snapshotsDir; id +:+ ".png"].

(** The update is confirmed: the received file is moved onto the baseline
    and the result becomes [{ updated: true }]. *)
Lemma review_confirmed (io : Interaction) (result : Result.t) (w : World)
    (viewAction : bool) (content : string) :
  settled (viewRace io) = Some viewAction →
  updateRace io = Answered true →
  files w !! moved_from = Some content →
  review chalk name id snapshotsDir receivedDir diffDir postfix io result w =
    (Normal Result.just_updated,
     with_files (λ f, <[moved_to := content]> (delete moved_from f))
       (more_events (review_shown chalk name id diffDir viewAction) w)).
Proof.
  intros Hview Hupdate Hfile. subst moved_from moved_to.
  destruct io as [view update]. cbn [viewRace updateRace] in *. subst update.
  unfold review, confirm_race, renameSync, emit.
  destruct w as [skip rt env tc st fs tf ev]. cbn [files] in Hfile.
  destruct view as [[]| |]; cbn [settled] in Hview; try discriminate;
    injection Hview as <-;
    cbv beta iota zeta delta
      [mbind M_bind mret M_ret gets modify with_events with_files
       more_events files events UNSTABLE_SKIP_REPORTING RETRY_TIMES
       process_env timesCalled snapshotState touchedFiles
       viewRace updateRace];
    rewrite Hfile; cbv beta iota;
    unfold review_shown, announcement, view_prompt, update_prompt;
    rewrite <- !app_assoc; reflexivity.
Qed.

(** The update is declined, or its timer fires first: the result is the
    one the comparison gave, and no file is touched. *)
Lemma review_declined (io : Interaction) (result : Result.t) (w : World)
    (viewAction : bool) :
  settled (viewRace io) = Some viewAction →
  settled (updateRace io) = Some false →
  review chalk name id snapshotsDir receivedDir diffDir postfix io result w =
    (Normal result,
     more_events
       (app (review_shown chalk name id diffDir viewAction)
          [confirm_stop "Update Question"]) w).
Proof.
  intros Hview Hupdate.
  destruct io as [view update]. cbn [viewRace updateRace] in *.
  unfold review, confirm_race, renameSync, emit.
  destruct w as [skip rt env tc st fs tf ev].
  destruct view as [[]| |]; cbn [settled] in Hview; try discriminate;
    injection Hview as <-;
    (destruct update as [[]| |]; cbn [settled] in Hupdate; try discriminate);
    cbv beta iota zeta delta
      [mbind M_bind mret M_ret gets modify with_events with_files
       more_events files events UNSTABLE_SKIP_REPORTING RETRY_TIMES
       process_env timesCalled snapshotState touchedFiles
       viewRace updateRace];
    unfold review_shown, announcement, view_prompt, update_prompt;
    rewrite <- !app_assoc; reflexivity.
Qed.

End Review.

(* ===================================================================== *)
(** * What the steps after the resolution leave alone                     *)
(* ===================================================================== *)

#[global] Instance later_frame_preorder : PreOrder later_frame.
Proof.
  split.
  - intros w. split; try reflexivity; exists []; symmetry; apply app_nil_r.
  - intros w1 w2 w3 [] []. split; try congruence.
    + destruct lf_touched0 as [l1 E1], lf_touched1 as [l2 E2].
      exists (app l1 l2). rewrite E2, E1. symmetry. apply app_assoc.
    + intros Hs. rewrite lf_suppressed1 by congruence. auto.
    + destruct lf_events0 as [l1 E1], lf_events1 as [l2 E2].
      exists (app l1 l2). rewrite E2, E1. symmetry. apply app_assoc.
Qed.

Lemma later_frame_events (l : list Event) (w : World) :
  later_frame w (with_events (λ done, app done l) w).
Proof.
  split; try reflexivity; [exists [] | exists l]; [| reflexivity].
  symmetry. apply app_nil_r.
Qed.

Lemma later_frame_touched (l : list string) (w : World) :
  later_frame w (with_touchedFiles (λ done, app done l) w).
Proof.
  split; try reflexivity; [exists l | exists []]; [reflexivity |].
  symmetry. apply app_nil_r.
Qed.

Lemma later_frame_files (f : Files → Files) (w : World) :
  later_frame w (with_files f w).
Proof. split; try reflexivity; exists []; symmetry; apply app_nil_r. Qed.

Lemma later_frame_merged (p : SnapshotState.partial) (w : World) :
  SnapshotState._counters' p = None → later_frame w (merged p w).
Proof.
  intros Hp. unfold merged.
  destruct (UNSTABLE_SKIP_REPORTING w) eqn:Hskip; [reflexivity |].
  split; try reflexivity.
  - exists []. symmetry. apply app_nil_r.
  - cbn. rewrite Hp. reflexivity.
  - intros Hs. congruence.
  - exists []. symmetry. apply app_nil_r.
Qed.

Section LaterFrame.

Context `{Imports}.

Lemma keeps_emit (e : Event) : keeps later_frame (emit e).
Proof. intros w. apply later_frame_events. Qed.

Lemma keeps_updateSnapshotState (p : SnapshotState.partial) :
  SnapshotState._counters' p = None →
  keeps later_frame (updateSnapshotState p).
Proof.
  intros Hp w. rewrite updateSnapshotState_run. cbn [snd].
  apply later_frame_merged, Hp.
Qed.

Lemma keeps_on_files (engine : Engine) (args : DiffArgs.t) :
  keeps later_frame (on_files engine args).
Proof.
  intros w. unfold on_files. destruct (engine args (files w)) as [r f].
  apply later_frame_files.
Qed.

Lemma keeps_renameSync (a b : string) : keeps later_frame (renameSync a b).
Proof.
  intros w. unfold renameSync. rewrite run_bind. cbn [gets].
  destruct (files w !! a); [apply later_frame_files | reflexivity].
Qed.

(** One step of a proof that a computation keeps [later_frame]. *)
Ltac keeps_later :=
  repeat first
    [ apply (keeps_ret later_frame)
    | apply (keeps_throw later_frame)
    | apply (keeps_gets later_frame)
    | apply keeps_emit
    | apply keeps_renameSync
    | apply keeps_on_files
    | apply keeps_updateSnapshotState; reflexivity
    | apply (keeps_bind later_frame); [| intros ?]
    | match goal with
      | |- keeps _ (if ?b then _ else _) => destruct b
      | |- keeps _ (match ?x with _ => _ end) => destruct x
      end ].

Lemma keeps_checkResult (result : Result.t) (retryTimes : Z) (id : string)
    (chalk : Chalk) (dump inline allow : bool) :
  keeps later_frame (checkResult result retryTimes id chalk dump inline allow).
Proof. unfold checkResult. keeps_later. Qed.

Lemma keeps_review (chalk : Chalk) (name id sd rd dd pf : string)
    (io : Interaction) (result : Result.t) :
  keeps later_frame (review chalk name id sd rd dd pf io result).
Proof. unfold review, confirm_race. keeps_later. Qed.

Lemma keeps_compare_review_classify (common options : Options.t) (this : This)
    (received : string) (io : Interaction) (retryTimes : Z)
    (id updateSnapshot : string) :
  keeps later_frame
    (compare_review_classify common this received options io retryTimes id
       updateSnapshot).
Proof.
  unfold compare_review_classify, review_classify, run_engine, syncExists,
    existsSync.
  keeps_later; first [apply keeps_review | apply keeps_checkResult].
Qed.

(** The world the resolver leaves: the one it found, or that one with
    the attempt counted. *)
Lemma resolver_world (retryTimes : Z) (testPath name : string)
    (c : CustomSnapshotIdentifier) (w : World) :
  let run := createSnapshotIdentifier retryTimes testPath name c w in
  (retryTimes = 0 → run.2 = w)
  ∧ (retryTimes ≠ 0 → ∀ id, run.1 = Normal id → run.2 = attempted id w)
  ∧ (∀ e, run.1 = Thrown e → run.2 = w).
Proof.
  cbv zeta. destruct (decide (retryTimes = 0)) as [-> | Hrt].
  - rewrite resolve_without_retries. cbn [fst snd].
    split; [reflexivity |]. split; [intros []; reflexivity | discriminate].
  - rewrite (resolve_with_retries _ _ _ _ _ Hrt).
    split; [intros E; contradiction |].
    destruct c as [| s | f].
    + split; [discriminate | reflexivity].
    + destruct (JS.truthy s); cbn [fst snd];
        (split; [intros id E | intros e E]); congruence.
    + destruct (f _) as [s|]; [destruct (JS.truthy s) |]; cbn [fst snd];
        (split; [intros id E | intros e E]); congruence.
Qed.

(** The whole call, from the world the resolver leaves. *)
Lemma matcher_frame (common options : Options.t) (this : This)
    (received : string) (io : Interaction) (w : World) :
  isNot this = false →
  later_frame
    (createSnapshotIdentifier (JS.or_zero (RETRY_TIMES w)) (testPath this)
       (currentTestName this) (the_customSnapshotIdentifier common options)
       (counted (currentTestName this) w)).2
    (configureToMatchImageSnapshot common this received options io w).2.
Proof.
  intros Hnot. rewrite matcher_run, Hnot. cbv zeta.
  destruct (createSnapshotIdentifier _ _ _ _ _) as [[id|e] w2]; cbn [snd];
    [| reflexivity].
  destruct (String.eqb _ _ && negb _).
  - apply later_frame_touched.
  - etransitivity; [apply later_frame_touched |].
    apply keeps_compare_review_classify.
Qed.

End LaterFrame.

Section WholeCall.

Context `{Imports}.

(** The resolver writes to the ledger and to nothing else. *)
Lemma resolver_only_ledger (retryTimes : Z) (testPath name : string)
    (c : CustomSnapshotIdentifier) (w : World) :
  ∃ t, (createSnapshotIdentifier retryTimes testPath name c w).2
         = with_timesCalled (λ _, t) w.
Proof.
  destruct (resolver_world retryTimes testPath name c w) as (H0 & H1 & He).
  destruct (createSnapshotIdentifier retryTimes testPath name c w)
    as [[id|e] w2] eqn:E; cbn [fst snd] in *.
  - destruct (decide (retryTimes = 0)) as [Hrt | Hrt].
    + exists (timesCalled w). rewrite (H0 Hrt). destruct w; reflexivity.
    + eexists. rewrite (H1 Hrt id eq_refl). reflexivity.
  - exists (timesCalled w). rewrite (He e eq_refl). destruct w; reflexivity.
Qed.

(** ** Suppressed reporting *)

(** C2: with [global.UNSTABLE_SKIP_REPORTING] set, a matcher call (one
    that is not negated) leaves [matched], [added], [updated] and
    [unmatched] as they were, but the per-test invocation counter is
    incremented all the same: [Map.prototype.set] has updated the map of
    the state before [updateSnapshotState] is entered. *)
Theorem suppressed_reporting_still_counts_the_call
    (common options : Options.t) (this : This) (received : string)
    (io : Interaction) (w : World) :
  UNSTABLE_SKIP_REPORTING w = true →
  isNot this = false →
  let s := snapshotState w in
  let s' := snapshotState
              (configureToMatchImageSnapshot common this received options io w).2 in
  SnapshotState.matched s' = SnapshotState.matched s
  ∧ SnapshotState.added s' = SnapshotState.added s
  ∧ SnapshotState.updated s' = SnapshotState.updated s
  ∧ SnapshotState.unmatched s' = SnapshotState.unmatched s
  ∧ SnapshotState._counters s' !! currentTestName this
      = Some (JS.or_zero (SnapshotState._counters s !! currentTestName this) + 1)
  ∧ SnapshotState._counters s' ≠ SnapshotState._counters s.
Proof.
  intros Hflag Hnot s s'.
  pose proof (matcher_frame common options this received io w Hnot) as F.
  destruct (resolver_only_ledger (JS.or_zero (RETRY_TIMES w)) (testPath this)
              (currentTestName this) (the_customSnapshotIdentifier common options)
              (counted (currentTestName this) w)) as [t Ht].
  rewrite Ht in F.
  assert (s' = snapshotState (counted (currentTestName this) w)) as ->.
  { subst s'. rewrite (lf_suppressed _ _ F); [reflexivity | exact Hflag]. }
  subst s. cbn.
  repeat split; try reflexivity.
  - apply lookup_insert_eq.
  - intros E.
    apply (f_equal (λ m : gmap string Z, m !! currentTestName this)) in E.
    rewrite lookup_insert_eq in E.
    destruct (SnapshotState._counters (snapshotState w) !! currentTestName this)
      as [n|]; cbn in E; [injection E as E; lia | discriminate].
Qed.

End WholeCall.

(** The theorem at a first, passing comparison with reporting suppressed:
    [matched] stays 0 and the invocation counter of the test becomes 1. *)
Lemma suppressed_reporting_still_counts_the_call_witness :
  let I := Sample.imports (Sample.returns r_pass) in
  let s' := snapshotState
              (toMatchImageSnapshot login_test "image" Options.empty no_prompt
                 (suppressed (with_baseline (fresh "new")))).2 in
  SnapshotState.matched s' = 0
  ∧ SnapshotState._counters s' !! "login...shows the form" = Some 1.
Proof.
  intros I s'.
  destruct (suppressed_reporting_still_counts_the_call
              Options.empty Options.empty login_test "image" no_prompt
              (suppressed (with_baseline (fresh "new"))) eq_refl eq_refl)
    as (Hm & _ & _ & _ & Hc & _).
  split; [exact Hm | exact Hc].
Defined.

(* ===================================================================== *)
(** * The retry ledger                                                    *)
(* ===================================================================== *)

Section Ledger.

Context `{Imports}.

(** The ledger and the retry signal after a call. *)
Lemma matcher_ledger (common options : Options.t) (this : This)
    (received : string) (io : Interaction) (w : World) :
  let run := configureToMatchImageSnapshot common this received options io w in
  let resolution :=
    createSnapshotIdentifier (JS.or_zero (RETRY_TIMES w)) (testPath this)
      (currentTestName this) (the_customSnapshotIdentifier common options)
      (counted (currentTestName this) w) in
  RETRY_TIMES run.2 = RETRY_TIMES w
  ∧ timesCalled run.2 =
      if isNot this then timesCalled w
      else match resolution.1 with
           | Normal id =>
               if decide (JS.or_zero (RETRY_TIMES w) = 0) then timesCalled w
               else <[id := JS.or_zero (timesCalled w !! id) + 1]> (timesCalled w)
           | Thrown _ => timesCalled w
           end.
Proof.
  cbv zeta. destruct (isNot this) eqn:Hnot.
  - rewrite matcher_run, Hnot. split; reflexivity.
  - pose proof (matcher_frame common options this received io w Hnot) as F.
    rewrite (lf_retry _ _ F), (lf_ledger _ _ F).
    destruct (resolver_world (JS.or_zero (RETRY_TIMES w)) (testPath this)
                (currentTestName this) (the_customSnapshotIdentifier common options)
                (counted (currentTestName this) w)) as (H0 & H1 & He).
    destruct (resolver_only_ledger (JS.or_zero (RETRY_TIMES w)) (testPath this)
                (currentTestName this) (the_customSnapshotIdentifier common options)
                (counted (currentTestName this) w)) as [t Ht].
    split; [rewrite Ht; reflexivity |].
    destruct (createSnapshotIdentifier _ _ _ _ _) as [[id|e] w2]; cbn [fst snd] in *.
    + destruct (decide _) as [Hrt | Hrt].
      * rewrite (H0 Hrt). reflexivity.
      * rewrite (H1 Hrt id eq_refl). reflexivity.
    + rewrite (He e eq_refl). reflexivity.
Qed.

(** C10: the ledger belongs to the process, not to a matcher.  Through a
    call of a matcher of any configuration an entry of the ledger is never
    removed and never decreases, and [updateSnapshotState] does not touch
    the ledger; when retries are active and the identifier is resolved, the
    entry of that identifier is incremented by one, whether
    [global.UNSTABLE_SKIP_REPORTING] is set or not; and a call of a matcher
    of another configuration that resolves the same identifier increments
    the same entry again. *)
Theorem retry_ledger_is_shared_and_only_grows
    (common options : Options.t) (this : This) (received : string)
    (io : Interaction) (w : World) :
  let run := configureToMatchImageSnapshot common this received options io w in
  (∀ id n, timesCalled w !! id = Some n →
     ∃ n', timesCalled run.2 !! id = Some n' ∧ n ≤ n')
  ∧ (∀ p, timesCalled (updateSnapshotState p w).2 = timesCalled w)
  ∧ (isNot this = false →
     JS.or_zero (RETRY_TIMES w) ≠ 0 →
     ∀ id w2,
       createSnapshotIdentifier (JS.or_zero (RETRY_TIMES w)) (testPath this)
         (currentTestName this) (the_customSnapshotIdentifier common options)
         (counted (currentTestName this) w) = (Normal id, w2) →
       timesCalled run.2
         = <[id := JS.or_zero (timesCalled w !! id) + 1]> (timesCalled w))
  ∧ (∀ (common' options' : Options.t) (this' : This) (received' : string)
       (io' : Interaction) (id : string),
       isNot this = false → isNot this' = false →
       JS.or_zero (RETRY_TIMES w) ≠ 0 →
       the_customSnapshotIdentifier common options = CsiString id →
       the_customSnapshotIdentifier common' options' = CsiString id →
       JS.truthy id = true →
       timesCalled
         (configureToMatchImageSnapshot common' this' received' options' io'
            run.2).2 !! id
         = Some (JS.or_zero (timesCalled w !! id) + 2)).
Proof.
  cbv zeta.
  destruct (matcher_ledger common options this received io w) as [Hrt Hled].
  cbv zeta in Hrt, Hled.
  split; [| split; [| split]].
  - intros id n Hn. rewrite Hled.
    destruct (isNot this); [eauto with lia |].
    destruct (createSnapshotIdentifier _ _ _ _ _).1 as [id'|e]; [| eauto with lia].
    destruct (decide _); [eauto with lia |].
    destruct (decide (id' = id)) as [-> | Hne].
    + rewrite lookup_insert_eq, Hn. cbn. eexists. split; [reflexivity | lia].
    + rewrite lookup_insert_ne by exact Hne. eauto with lia.
  - intros p. rewrite updateSnapshotState_run. cbn [snd]. unfold merged.
    destruct (UNSTABLE_SKIP_REPORTING w); reflexivity.
  - intros Hnot Hactive id w2 Hres. rewrite Hled, Hnot, Hres. cbn [fst].
    destruct (decide _); [contradiction | reflexivity].
  - intros common' options' this' received' io' id Hnot Hnot' Hactive Hc Hc' Hid.
    destruct (matcher_ledger common' options' this' received' io'
                (configureToMatchImageSnapshot common this received options io w).2)
      as [_ Hled'].
    cbv zeta in Hled'. rewrite Hled', Hnot', Hrt, Hc'. clear Hled'.
    rewrite (resolve_with_retries _ _ _ _ _ Hactive), Hid. cbn [fst].
    rewrite Hled, Hnot, Hc.
    rewrite (resolve_with_retries _ _ _ _ _ Hactive), Hid. cbn [fst].
    destruct (decide _); [contradiction |].
    rewrite !lookup_insert_eq. cbn [JS.or_zero]. f_equal. lia.
Qed.

End Ledger.

(* ===================================================================== *)
(** * Text inside a message                                               *)
(* ===================================================================== *)

Lemma append_assoc (s t u : string) : (s +:+ t) +:+ u = s +:+ (t +:+ u).
Proof.
  induction s as [|c s IH]; [reflexivity |].
  rewrite !append_cons, IH. reflexivity.
Qed.

Lemma prefix_split (sub s : string) :
  String.prefix sub s = true → ∃ post, s = sub +:+ post.
Proof.
  revert s. induction sub as [|c sub IH]; intros s Hp.
  - exists s. reflexivity.
  - destruct s as [|d s]; [discriminate |]. cbn in Hp.
    destruct (ascii_dec c d) as [-> | Hne]; [| discriminate].
    destruct (IH s Hp) as [post ->]. exists post. reflexivity.
Qed.

Lemma includes_append_l (sub s t : string) :
  JS.Includes sub s → JS.Includes sub (s +:+ t).
Proof.
  intros (pre & post & ->). exists pre, (post +:+ t).
  rewrite !append_assoc. reflexivity.
Qed.

Lemma includes_append_r (sub s t : string) :
  JS.Includes sub t → JS.Includes sub (s +:+ t).
Proof.
  intros (pre & post & ->). exists (s +:+ pre), post.
  rewrite !append_assoc. reflexivity.
Qed.

Lemma includes_sound (sub s : string) :
  JS.includes sub s = true → JS.Includes sub s.
Proof.
  induction s as [|c s IH]; cbn [JS.includes]; intros Hi;
    apply orb_true_iff in Hi as [Hp | Hi].
  - destruct (prefix_split _ _ Hp) as [post E]. exists EmptyString, post. exact E.
  - discriminate.
  - destruct (prefix_split _ _ Hp) as [post E]. exists EmptyString, post. exact E.
  - change (String c s) with (String c EmptyString +:+ s).
    apply includes_append_r, IH, Hi.
Qed.

(* ===================================================================== *)
(** * Errors of configuration and the missing baseline                    *)
(* ===================================================================== *)

Section BeforeTheComparison.

Context `{Imports}.

(** C4 (amended): when retries are active the resolution throws if no
    custom identifier is supplied or it is empty (as a string or as the
    result of the function), and otherwise returns the custom identifier
    and counts the attempt in the ledger, whatever the ledger already
    holds for it: that the identifier is new is not checked.  The matcher
    then throws the same error with nothing done but the counting of the
    call: no comparison has run.  When [retryTimes = 0] a function that
    returns the empty string falls back to the default identifier,
    without error and without touching anything. *)
Theorem retries_require_custom_identifier
    (retryTimes : Z) (file name : string)
    (c : CustomSnapshotIdentifier) (w : World) :
  (retryTimes ≠ 0 →
   createSnapshotIdentifier retryTimes file name c w =
     match custom_value c file name w with
     | Some id =>
         if JS.truthy id then (Normal id, attempted id w)
         else (Thrown retry_error, w)
     | None => (Thrown retry_error, w)
     end)
  ∧ (∀ (common options : Options.t) (this : This) (received : string)
       (io : Interaction),
       isNot this = false →
       JS.or_zero (RETRY_TIMES w) ≠ 0 →
       JS.truthy_opt
         (custom_value (the_customSnapshotIdentifier common options)
            (testPath this) (currentTestName this)
            (counted (currentTestName this) w)) = false →
       configureToMatchImageSnapshot common this received options io w
         = (Thrown retry_error, counted (currentTestName this) w))
  ∧ (∀ f, c = CsiFunction f →
       f (identifier_args file name w) = Some "" →
       createSnapshotIdentifier 0 file name c w =
         (Normal (default_identifier file name w), w)).
Proof.
  split; [| split].
  - intros Hrt. rewrite (resolve_with_retries _ _ _ _ _ Hrt).
    destruct c; reflexivity.
  - intros common options this received io Hnot Hrt Hfalsy.
    rewrite matcher_run, Hnot. cbv zeta.
    rewrite (resolve_with_retries _ _ _ _ _ Hrt).
    destruct (the_customSnapshotIdentifier common options) as [| s | f];
      cbn [custom_value JS.truthy_opt] in Hfalsy.
    + reflexivity.
    + rewrite Hfalsy. reflexivity.
    + destruct (f _) as [s|]; [| reflexivity].
      cbn [JS.truthy_opt] in Hfalsy. rewrite Hfalsy. reflexivity.
  - intros f -> Hf. rewrite resolve_without_retries, Hf. reflexivity.
Qed.

Lemma missing_baseline_text (chalk : Chalk) (wr : World) :
  ∃ text,
    missing_baseline_message chalk wr = (Normal text, wr)
    ∧ JS.Includes "not written" text
    ∧ JS.Includes "continuous integration" text.
Proof.
  eexists. split; [reflexivity |]. split.
  - do 2 apply includes_append_r. apply includes_sound. vm_compute. reflexivity.
  - do 2 apply includes_append_r. apply includes_sound. vm_compute. reflexivity.
Qed.

(** C7 (amended): when the call is not negated and the identifier is
    resolved, the update mode is ['none'] and there is no file at the
    baseline path, the matcher returns, without throwing, a verdict with
    [pass = false] whose message contains "not written" and "continuous
    integration"; no comparison runs and no file is written; the counters
    [matched], [added], [updated] and [unmatched] are left as they were,
    while the invocation counter of the test has been incremented. *)
Theorem missing_baseline_is_a_failing_verdict
    (common options : Options.t) (this : This) (received : string)
    (io : Interaction) (w w2 : World) (id : string) :
  isNot this = false →
  createSnapshotIdentifier (JS.or_zero (RETRY_TIMES w)) (testPath this)
    (currentTestName this) (the_customSnapshotIdentifier common options)
    (counted (currentTestName this) w) = (Normal id, w2) →
  SnapshotState._updateSnapshot (snapshotState w) = "none" →
  files w !! baselineSnapshotPath common this options id = None →
  missing_baseline_outcome false common options this received io w
  ∧ let s := snapshotState w in
    let s' := snapshotState
                (configureToMatchImageSnapshot common this received options io w).2 in
    SnapshotState.matched s' = SnapshotState.matched s
    ∧ SnapshotState.added s' = SnapshotState.added s
    ∧ SnapshotState.updated s' = SnapshotState.updated s
    ∧ SnapshotState.unmatched s' = SnapshotState.unmatched s
    ∧ SnapshotState._counters s' !! currentTestName this
        = Some (JS.or_zero (SnapshotState._counters s !! currentTestName this) + 1).
Proof.
  intros Hnot Hres Hmode Hfile.
  destruct (resolver_only_ledger (JS.or_zero (RETRY_TIMES w)) (testPath this)
              (currentTestName this) (the_customSnapshotIdentifier common options)
              (counted (currentTestName this) w)) as [t Ht].
  rewrite Hres in Ht. cbn [snd] in Ht. subst w2.
  assert (configureToMatchImageSnapshot common this received options io w =
            (Normal (mkVerdict (missing_baseline_message
                                  (the_chalk common options)) false),
             with_touchedFiles
               (λ l, app l [baselineSnapshotPath common this options id])
               (with_timesCalled (λ _, t) (counted (currentTestName this) w))))
    as Hrun.
  { rewrite matcher_run, Hnot. cbv zeta. rewrite Hres. cbn.
    rewrite Hmode, Hfile. reflexivity. }
  split.
  - eexists _, _. split; [exact Hrun |].
    split; [reflexivity |].
    split; [intros wr; apply missing_baseline_text |].
    split; [reflexivity |]. split; reflexivity.
  - rewrite Hrun. cbn. repeat split; try reflexivity. apply lookup_insert_eq.
Qed.

End BeforeTheComparison.

(** C7, as stated, fails: in a fresh session with update mode ['none'] the
    call for a test without baseline returns the failing verdict, and the
    snapshot state now counts one call for the test. *)
Lemma missing_baseline_as_specified_fails : ¬ missing_baseline_as_specified.
Proof.
  intros Hclaim.
  destruct (Hclaim (Sample.imports (Sample.returns r_pass))
              Options.empty Options.empty login_test "image" no_prompt
              (fresh "none") (counted "login...shows the form" (fresh "none"))
              "shows the form-snap" eq_refl)
    as (v & w' & Hrun & _ & _ & Hstate & _).
  - vm_compute. reflexivity.
  - reflexivity.
  - reflexivity.
  - apply (f_equal snd) in Hrun. cbn [snd] in Hrun. subst w'.
    apply (f_equal (λ s, SnapshotState._counters s !! "login...shows the form"))
      in Hstate.
    vm_compute in Hstate. discriminate.
Qed.

(* ===================================================================== *)
(** * The message of a failed comparison                                  *)
(* ===================================================================== *)

Lemma append_empty_r (s : string) : s +:+ EmptyString = s.
Proof.
  induction s as [|c s IH]; [reflexivity |]. rewrite append_cons, IH. reflexivity.
Qed.

Lemma failure_message_run (result : Result.t) (chalk : Chalk)
    (dump inline allow : bool) (w : World) :
  failure_message result
    (Number.mul (Result.diffRatio result) (Number.of_Z 100))
    chalk dump inline allow w
  = (Normal (failure_text result chalk dump inline allow (process_env w)), w).
Proof.
  unfold failure_message, failure_text, dump_text. cbv zeta.
  destruct inline.
  - rewrite run_bind, run_bind. cbn [gets mret M_ret].
    fold (inline_capable (process_env w)). cbn [andb].
    destruct (inline_capable (process_env w)); [reflexivity |].
    rewrite orb_true_r. reflexivity.
  - rewrite run_bind. cbn [mret M_ret andb]. rewrite orb_false_r.
    destruct dump; [reflexivity |]. rewrite append_empty_r. reflexivity.
Qed.

(** The verdict of a failed comparison. *)
Lemma failed_verdict (result : Result.t) (retryTimes : Z) (id : string)
    (chalk : Chalk) (dump inline allow : bool) (w : World) :
  Result.compared result = true →
  Result.pass result = false →
  (checkResult result retryTimes id chalk dump inline allow w).1
  = Normal (mkVerdict
              (failure_message result
                 (Number.mul (Result.diffRatio result) (Number.of_Z 100))
                 chalk dump inline allow)
              false).
Proof.
  intros Hc Hp. unfold Result.compared in Hc.
  apply andb_true_iff in Hc as [Hu Ha]. apply negb_true_iff in Hu, Ha.
  rewrite (checkResult_failed_run _ _ _ _ _ _ _ _ Hu Ha Hp). reflexivity.
Qed.

Lemma size_failure_quotes_both (d : Result.dimensions) :
  JS.Includes (pair_text (Result.baselineWidth d) (Result.baselineHeight d))
    (size_failure d)
  ∧ JS.Includes (pair_text (Result.receivedWidth d) (Result.receivedHeight d))
      (size_failure d).
Proof.
  unfold size_failure, pair_text. split.
  - exists "Expected image to be the same size as the snapshot ",
      (", but was different ("
         +:+ Number.toString (Result.receivedWidth d) +:+ "x"
         +:+ Number.toString (Result.receivedHeight d) +:+ ")." +:+ JS.LF).
    rewrite !append_assoc. reflexivity.
  - exists ("Expected image to be the same size as the snapshot ("
              +:+ Number.toString (Result.baselineWidth d) +:+ "x"
              +:+ Number.toString (Result.baselineHeight d)
              +:+ "), but was different "), ("." +:+ JS.LF).
    rewrite !append_assoc. reflexivity.
Qed.

Lemma percentage_failure_quotes_both (percentage count : Number.t) :
  JS.Includes (Number.toString percentage +:+ "% different")
    (percentage_failure percentage count)
  ∧ JS.Includes (Number.toString count +:+ " differing pixels")
      (percentage_failure percentage count).
Proof.
  unfold percentage_failure. split.
  - exists "Expected image to match or be a close match to snapshot but was ",
      (" from snapshot (" +:+ Number.toString count
         +:+ " differing pixels)." +:+ JS.LF).
    rewrite !append_assoc. reflexivity.
  - exists ("Expected image to match or be a close match to snapshot but was "
              +:+ Number.toString percentage +:+ "% different from snapshot ("),
      (")." +:+ JS.LF).
    rewrite !append_assoc. reflexivity.
Qed.

(** C8: the message of a failed comparison is the sentence about the sizes,
    quoting the width and height of the baseline and of the received image,
    when [diffSize] holds and [allowSizeMismatch] does not, and otherwise the
    sentence with the percentage [diffRatio * 100] and the number of
    differing pixels; in both cases the pointer to [diffOutputPath] follows.
    For [diffRatio = 0.023] and [diffPixelCount = 45] the message reads
    "2.3% different" and "45 differing pixels". *)
Theorem failure_message_reports_size_or_percentage
    (result : Result.t) (retryTimes : Z) (id : string) (chalk : Chalk)
    (dump inline allow : bool) (w : World) :
  Result.compared result = true →
  Result.pass result = false →
  ∃ v,
    (checkResult result retryTimes id chalk dump inline allow w).1 = Normal v
    ∧ pass v = false
    ∧ ∀ wr, ∃ text first rest,
        message v wr = (Normal text, wr)
        ∧ text = (first
                    +:+ bold_red chalk "See diff for details:" +:+ " "
                    +:+ red chalk (Result.diffOutputPath result))
                   +:+ rest
        ∧ (Result.diffSize result = true → allow = false →
           let d := Result.imageDimensions result in
           first = size_failure d
           ∧ JS.Includes
               (pair_text (Result.baselineWidth d) (Result.baselineHeight d)) text
           ∧ JS.Includes
               (pair_text (Result.receivedWidth d) (Result.receivedHeight d)) text)
        ∧ (Result.diffSize result && negb allow = false →
           let percentage :=
             Number.mul (Result.diffRatio result) (Number.of_Z 100) in
           first = percentage_failure percentage (Result.diffPixelCount result)
           ∧ JS.Includes (Number.toString percentage +:+ "% different") text
           ∧ JS.Includes
               (Number.toString (Result.diffPixelCount result)
                  +:+ " differing pixels") text)
        ∧ (Result.diffSize result && negb allow = false →
           Result.diffRatio result = Number.ratio 23 1000 →
           Result.diffPixelCount result = Number.of_Z 45 →
           JS.Includes "2.3% different" text
           ∧ JS.Includes "45 differing pixels" text).
Proof.
  intros Hc Hp. eexists. split; [apply failed_verdict; assumption |].
  split; [reflexivity |]. intros wr. cbn [message].
  exists (failure_text result chalk dump inline allow (process_env wr)).
  eexists _, (dump_text result chalk dump inline (process_env wr)).
  split; [apply failure_message_run |].
  split; [reflexivity |].
  assert (∀ sub first,
            JS.Includes sub first →
            JS.Includes sub
              ((first +:+ see_diff chalk (Result.diffOutputPath result))
                 +:+ dump_text result chalk dump inline (process_env wr)))
    as Hin by (intros; do 2 apply includes_append_l; assumption).
  unfold failure_text.
  split; [| split].
  - intros Hsize ->. rewrite Hsize. cbn [negb andb].
    destruct (size_failure_quotes_both (Result.imageDimensions result)).
    split; [reflexivity |]. split; apply Hin; assumption.
  - intros ->.
    destruct (percentage_failure_quotes_both
                (Number.mul (Result.diffRatio result) (Number.of_Z 100))
                (Result.diffPixelCount result)).
    split; [reflexivity |]. split; apply Hin; assumption.
  - intros -> -> ->.
    destruct (percentage_failure_quotes_both
                (Number.mul (Number.ratio 23 1000) (Number.of_Z 100))
                (Number.of_Z 45)) as [Hpct Hcount].
    split; apply Hin; [exact Hpct | exact Hcount].
Qed.

(** The theorem at the comparison [r_fail], whose ratio is 0.023 and whose
    count is 45, rendered without colours. *)
Lemma failure_message_reports_size_or_percentage_witness :
  ∃ v,
    (checkResult r_fail 0 "t-snap" plain false false false (fresh "new")).1
      = Normal v
    ∧ (message v (fresh "new")).1
      = Normal
          ("Expected image to match or be a close match to snapshot but was 2.3% different from snapshot (45 differing pixels)."
             +:+ JS.LF
             +:+ "See diff for details: /p/__diff_output/login/shows the form-snap-diff.png").
Proof.
  destruct (failure_message_reports_size_or_percentage
              r_fail 0 "t-snap" plain false false false (fresh "new")
              eq_refl eq_refl) as (v & Hv & _ & _).
  exists v. split; [exact Hv |].
  vm_compute in Hv. injection Hv as <-. vm_compute. reflexivity.
Defined.

(* ===================================================================== *)
(** * Calling the message again                                           *)
(* ===================================================================== *)

(** C9, as stated, fails: with [dumpInlineDiffToConsole] the closure reads
    [process.env] when it is called, and the text it returns in iTerm is not
    the text it returns elsewhere. *)
Lemma message_pure_as_specified_fails : ¬ message_pure_as_specified.
Proof.
  intros Hclaim.
  destruct (Hclaim r_fail 0 "t-snap" plain false true false (fresh "new")
              eq_refl eq_refl) as (v & Hv & _ & Hpure).
  specialize (Hpure (fresh "new") (in_iTerm (fresh "new"))).
  vm_compute in Hv. injection Hv as <-.
  vm_compute in Hpure. discriminate.
Qed.

(** C9 (amended): a call of the message of a failed comparison returns a
    text, never throws and changes nothing, so any number of calls in a row
    return the same text; the text is fixed by what the closure captured
    and, when [dumpInlineDiffToConsole] is set, by whether [process.env] at
    the time of the call names a terminal of the list in [TERM_PROGRAM] or
    has [ENABLE_INLINE_DIFF]; without [dumpInlineDiffToConsole] the
    environment plays no part. *)
Theorem failure_message_is_repeatable
    (result : Result.t) (retryTimes : Z) (id : string) (chalk : Chalk)
    (dump inline allow : bool) (w : World) :
  Result.compared result = true →
  Result.pass result = false →
  ∃ v,
    (checkResult result retryTimes id chalk dump inline allow w).1 = Normal v
    ∧ (∀ n wr, ∃ text,
         call_times n (message v) wr = (replicate n (Normal text), wr))
    ∧ (∀ w1 w2,
         inline_capable (process_env w1) = inline_capable (process_env w2) →
         (message v w1).1 = (message v w2).1)
    ∧ (inline = false → ∀ w1 w2, (message v w1).1 = (message v w2).1).
Proof.
  intros Hc Hp. eexists. split; [apply failed_verdict; assumption |].
  cbn [message]. split; [| split].
  - intros n wr.
    exists (failure_text result chalk dump inline allow (process_env wr)).
    revert wr. induction n as [|n IH]; intros wr; [reflexivity |].
    cbn [call_times]. rewrite failure_message_run, IH. reflexivity.
  - intros w1 w2 Henv. rewrite !failure_message_run. cbn [fst].
    unfold failure_text, dump_text. rewrite Henv. reflexivity.
  - intros -> w1 w2. rewrite !failure_message_run. reflexivity.
Qed.

(** The theorem at [r_fail] with the inline dump requested: three calls in
    iTerm return three times the same text and leave the world as it is. *)
Lemma failure_message_is_repeatable_witness :
  ∃ v text,
    (checkResult r_fail 0 "t-snap" plain false true false (fresh "new")).1
      = Normal v
    ∧ call_times 3 (message v) (in_iTerm (fresh "new"))
      = ([Normal text; Normal text; Normal text], in_iTerm (fresh "new")).
Proof.
  destruct (failure_message_is_repeatable
              r_fail 0 "t-snap" plain false true false (fresh "new")
              eq_refl eq_refl) as (v & Hv & Hcalls & _).
  destruct (Hcalls 3%nat (in_iTerm (fresh "new"))) as [text Htext].
  exists v, text. split; [exact Hv | exact Htext].
Defined.

(* ===================================================================== *)
(** * From the comparison to the verdict                                  *)
(* ===================================================================== *)

Lemma checkResult_updated_run (result : Result.t) (retryTimes : Z) (id : string)
    (chalk : Chalk) (dump inline allow : bool) (w : World) :
  Result.updated result = true →
  checkResult result retryTimes id chalk dump inline allow w =
    (Normal (mkVerdict empty_message true),
     merged (SnapshotState.only_updated
               (SnapshotState.updated (snapshotState w) + 1)) w).
Proof.
  intros Hu. unfold checkResult.
  rewrite (bind_normal _ _ w w (snapshotState w)) by reflexivity.
  rewrite Hu, run_bind, updateSnapshotState_run. reflexivity.
Qed.

Lemma checkResult_passed_run (result : Result.t) (retryTimes : Z) (id : string)
    (chalk : Chalk) (dump inline allow : bool) (w : World) :
  Result.compared result = true →
  Result.pass result = true →
  checkResult result retryTimes id chalk dump inline allow w =
    (Normal (mkVerdict empty_message true),
     merged (SnapshotState.only_matched
               (SnapshotState.matched (snapshotState w) + 1)) w).
Proof.
  intros Hc Hp. unfold Result.compared in Hc.
  apply andb_true_iff in Hc as [Hu Ha]. apply negb_true_iff in Hu, Ha.
  unfold checkResult.
  rewrite (bind_normal _ _ w w (snapshotState w)) by reflexivity.
  rewrite Hu, Ha, Hp, run_bind, updateSnapshotState_run. reflexivity.
Qed.

Lemma checkResult_added_run (result : Result.t) (retryTimes : Z) (id : string)
    (chalk : Chalk) (dump inline allow : bool) (w : World) :
  Result.updated result = false →
  Result.added result = true →
  checkResult result retryTimes id chalk dump inline allow w =
    (Normal (mkVerdict empty_message true),
     merged (SnapshotState.only_added
               (SnapshotState.added (snapshotState w) + 1)) w).
Proof.
  intros Hu Ha. unfold checkResult.
  rewrite (bind_normal _ _ w w (snapshotState w)) by reflexivity.
  rewrite Hu, Ha, run_bind, updateSnapshotState_run. reflexivity.
Qed.

Lemma merged_files (p : SnapshotState.partial) (w : World) :
  files (merged p w) = files w.
Proof. unfold merged. destruct (UNSTABLE_SKIP_REPORTING w); reflexivity. Qed.

Lemma merged_state (p : SnapshotState.partial) (w : World) :
  snapshotState (merged p w)
  = if UNSTABLE_SKIP_REPORTING w then snapshotState w
    else SnapshotState.merge (snapshotState w) p.
Proof. unfold merged. destruct (UNSTABLE_SKIP_REPORTING w); reflexivity. Qed.

(** [checkResult] writes no file. *)
Lemma checkResult_files (result : Result.t) (retryTimes : Z) (id : string)
    (chalk : Chalk) (dump inline allow : bool) (w : World) :
  files (checkResult result retryTimes id chalk dump inline allow w).2 = files w.
Proof.
  destruct (Result.updated result) eqn:Hu;
    [rewrite checkResult_updated_run by exact Hu; apply merged_files |].
  destruct (Result.added result) eqn:Ha;
    [rewrite checkResult_added_run by assumption; apply merged_files |].
  destruct (Result.pass result) eqn:Hp.
  - rewrite checkResult_passed_run
      by (try exact Hp; unfold Result.compared; rewrite Hu, Ha; reflexivity).
    apply merged_files.
  - rewrite (checkResult_failed_run _ _ _ _ _ _ _ _ Hu Ha Hp). cbn [snd].
    destruct (_ || _); [apply merged_files | reflexivity].
Qed.

Lemma merged_events (p : SnapshotState.partial) (w : World) :
  events (merged p w) = events w.
Proof. unfold merged. destruct (UNSTABLE_SKIP_REPORTING w); reflexivity. Qed.

(** [checkResult] does nothing to the outside. *)
Lemma checkResult_events (result : Result.t) (retryTimes : Z) (id : string)
    (chalk : Chalk) (dump inline allow : bool) (w : World) :
  events (checkResult result retryTimes id chalk dump inline allow w).2 = events w.
Proof.
  destruct (Result.updated result) eqn:Hu;
    [rewrite checkResult_updated_run by exact Hu; apply merged_events |].
  destruct (Result.added result) eqn:Ha;
    [rewrite checkResult_added_run by assumption; apply merged_events |].
  destruct (Result.pass result) eqn:Hp.
  - rewrite checkResult_passed_run
      by (try exact Hp; unfold Result.compared; rewrite Hu, Ha; reflexivity).
    apply merged_events.
  - rewrite (checkResult_failed_run _ _ _ _ _ _ _ _ Hu Ha Hp). cbn [snd].
    destruct (_ || _); [apply merged_events | reflexivity].
Qed.

Section Compared.

Context `{Imports}.
Context (common options : Options.t) (this : This) (received : string)
        (io : Interaction).

Lemma compared_world_state (w : World) (id : string) (f : Files) :
  let wc := compared_world common options this w id f in
  UNSTABLE_SKIP_REPORTING wc = UNSTABLE_SKIP_REPORTING w
  ∧ snapshotState wc = snapshotState (counted (currentTestName this) w)
  ∧ files wc = f
  ∧ RETRY_TIMES wc = RETRY_TIMES w
  ∧ events wc
    = app (events w) [compare_images (the_runInProcess common options) id].
Proof.
  unfold compared_world.
  destruct (resolver_only_ledger (JS.or_zero (RETRY_TIMES w)) (testPath this)
              (currentTestName this) (the_customSnapshotIdentifier common options)
              (counted (currentTestName this) w)) as [t ->].
  repeat split; reflexivity.
Qed.

(** After the comparison the matcher asks [fs.syncExists] and throws. *)
Lemma review_gate (retryTimes : Z) (id : string) (result : Result.t) (w : World) :
  review_classify common this options io retryTimes id result w
  = (Thrown type_error, w).
Proof. reflexivity. Qed.

(** A call that obtains the result of the comparison throws on line 248,
    in the world of the comparison. *)
Lemma matcher_compared (w : World) (id : string) (result : Result.t) (f : Files) :
  compared_with common options this received w id result f →
  configureToMatchImageSnapshot common this received options io w
  = (Thrown type_error, compared_world common options this w id f).
Proof.
  intros (Hnot & Hres & Hgate & Hengine).
  rewrite matcher_run, Hnot. cbv zeta. unfold compared_world.
  destruct (resolver_only_ledger (JS.or_zero (RETRY_TIMES w)) (testPath this)
              (currentTestName this) (the_customSnapshotIdentifier common options)
              (counted (currentTestName this) w)) as [t Ht].
  destruct (createSnapshotIdentifier _ _ _ _ _) as [[id'|e] w2];
    cbn [fst snd] in *; [| discriminate].
  injection Hres as ->. subst w2.
  cbn [snapshotState with_touchedFiles with_timesCalled counted
       with_snapshotState files SnapshotState._updateSnapshot
       SnapshotState.set_counters] in *.
  rewrite Hgate.
  unfold compare_review_classify, run_engine.
  rewrite run_bind, run_bind. unfold emit at 1. cbn [modify].
  unfold on_files.
  cbn [files with_events with_touchedFiles with_timesCalled counted
       with_snapshotState snapshotState SnapshotState._updateSnapshot
       SnapshotState.set_counters].
  rewrite Hengine. reflexivity.
Qed.

(** C5: the review is not entered after a passing comparison, nor after
    any other.  Whatever the call, the configuration, the comparison and
    the answers the prompts would get, what a matcher call does to the
    outside is at most the call of the comparison: no notification, no
    line on the terminal, no timer, no prompt, no browser.  The condition
    of the review on line 248 is the call of [fs.syncExists], which throws
    before the notification. *)
Theorem review_is_never_entered (w : World) :
  let run := configureToMatchImageSnapshot common this received options io w in
  ∃ shown,
    events run.2 = app (events w) shown
    ∧ existsb review_event shown = false
    ∧ (shown = []
       ∨ ∃ id, shown = [compare_images (the_runInProcess common options) id]).
Proof.
  cbv zeta. rewrite matcher_run.
  destruct (isNot this).
  { exists []. rewrite app_nil_r. repeat split. left. reflexivity. }
  cbv zeta.
  destruct (resolver_only_ledger (JS.or_zero (RETRY_TIMES w)) (testPath this)
              (currentTestName this) (the_customSnapshotIdentifier common options)
              (counted (currentTestName this) w)) as [t Ht].
  destruct (createSnapshotIdentifier _ _ _ _ _) as [[id|e] w2];
    cbn [fst snd] in *; subst w2.
  2:{ exists []. rewrite app_nil_r. repeat split. left. reflexivity. }
  destruct (String.eqb _ _ && negb _).
  { exists []. rewrite app_nil_r. repeat split. left. reflexivity. }
  exists [compare_images (the_runInProcess common options) id].
  split; [| split; [reflexivity | right; exists id; reflexivity]].
  destruct (the_comparison common options this received id w)
    as [c f] eqn:Hengine.
  unfold the_comparison in Hengine.
  unfold compare_review_classify, run_engine.
  rewrite run_bind, run_bind. unfold emit at 1. cbn [modify].
  unfold on_files.
  cbn [files with_events with_touchedFiles with_timesCalled counted
       with_snapshotState snapshotState SnapshotState._updateSnapshot
       SnapshotState.set_counters].
  rewrite Hengine. destruct c; reflexivity.
Qed.

(** C6: the update prompt is not reached.  A call that obtains the result
    of the comparison throws the [TypeError] of [fs.syncExists] on line
    248, however the prompts would be answered: no verdict is returned,
    nothing is shown, the files are those the comparison left, so that the
    received file is not moved onto the baseline, and the snapshot state
    is the one of the counted call, with [updated], [unmatched], [matched]
    and [added] as they were. *)
Theorem update_prompt_is_never_reached
    (w : World) (id : string) (result : Result.t) (f : Files) :
  compared_with common options this received w id result f →
  let run := configureToMatchImageSnapshot common this received options io w in
  run.1 = Thrown type_error
  ∧ files run.2 = f
  ∧ events run.2
    = app (events w) [compare_images (the_runInProcess common options) id]
  ∧ snapshotState run.2 = snapshotState (counted (currentTestName this) w).
Proof.
  intros Hcompared. cbv zeta.
  rewrite (matcher_compared w id result f Hcompared). cbn [fst snd].
  destruct (compared_world_state w id f) as (_ & Hstate & Hfiles & _ & Hevents).
  repeat split; assumption.
Qed.

End Compared.

(* ===================================================================== *)
(** * The scenarios                                                       *)
(* ===================================================================== *)

Lemma failing_call_compared (w : World) :
  w = with_baseline (fresh "new") ∨ w = suppressed (with_baseline (fresh "new")) →
  @compared_with failing Options.empty Options.empty login_test "image"
    w "shows the form-snap" r_fail
    (<[received_file := "received"]> (files w)).
Proof.
  intros [-> | ->]; repeat split; vm_compute; reflexivity.
Qed.

(** The theorem at a failed comparison that wrote the received file, with
    the answer to the update prompt ready: the call throws, the baseline
    holds what it held, the received file is where the comparison wrote
    it, and [updated] and [unmatched] are 0. *)
Lemma update_prompt_is_never_reached_witness :
  let run := @toMatchImageSnapshot failing login_test "image" Options.empty
               update_confirmed (with_baseline (fresh "new")) in
  run.1 = Thrown "TypeError: fs.syncExists is not a function"
  ∧ files run.2 !! baseline_file = Some "baseline"
  ∧ files run.2 !! received_file = Some "received"
  ∧ SnapshotState.updated (snapshotState run.2) = 0
  ∧ SnapshotState.unmatched (snapshotState run.2) = 0.
Proof.
  intros run.
  destruct (@update_prompt_is_never_reached failing
              Options.empty Options.empty login_test "image" update_confirmed
              (with_baseline (fresh "new")) "shows the form-snap" r_fail _
              (failing_call_compared _ (or_introl eq_refl)))
    as (Hthrown & Hfiles & _ & Hstate).
  subst run. unfold toMatchImageSnapshot.
  rewrite Hthrown, Hfiles, Hstate.
  repeat split; vm_compute; reflexivity.
Defined.

(** The theorem of C4 at a literal identifier that was attempted before:
    under [retryTimes = 1] it resolves again, and the ledger counts 2. *)
Lemma retries_require_custom_identifier_witness :
  let I := passing in
  let w := attempted "home" (fresh "new") in
  createSnapshotIdentifier 1 "/p/a.spec.js" "login...shows the form"
    (CsiString "home") w
  = (Normal "home", attempted "home" w)
  ∧ timesCalled (attempted "home" w) !! "home" = Some 2.
Proof.
  intros I w.
  destruct (@retries_require_custom_identifier I 1 "/p/a.spec.js"
              "login...shows the form" (CsiString "home") w) as (Hretry & _ & _).
  split; [apply Hretry; discriminate | vm_compute; reflexivity].
Defined.

(** The theorem of C7 in a fresh session with update mode ['none']: the
    verdict fails, nothing is compared, and the test has one call counted. *)
Lemma missing_baseline_is_a_failing_verdict_witness :
  let I := passing in
  let run := toMatchImageSnapshot login_test "image" Options.empty no_prompt
               (fresh "none") in
  (∃ v, run.1 = Normal v ∧ pass v = false)
  ∧ events run.2 = []
  ∧ SnapshotState.matched (snapshotState run.2) = 0
  ∧ SnapshotState._counters (snapshotState run.2) !! "login...shows the form"
    = Some 1.
Proof.
  intros I run.
  destruct (@missing_baseline_is_a_failing_verdict I
              Options.empty Options.empty login_test "image" no_prompt
              (fresh "none") (counted "login...shows the form" (fresh "none"))
              "shows the form-snap" eq_refl eq_refl eq_refl eq_refl)
    as [(v & w' & Hrun & Hpass & _ & _ & _ & Hevents) (Hmatched & _ & _ & _ & Hcount)].
  subst run. unfold toMatchImageSnapshot. rewrite Hrun in *. cbn [fst snd] in *.
  split; [exists v; split; [reflexivity | exact Hpass] |].
  split; [exact Hevents |]. split; [exact Hmatched | exact Hcount].
Defined.

(** The theorem of C10 with reporting suppressed and [retryTimes = 2]: a
    matcher configured with the identifier ["home"] and a matcher
    configured to run in process, called with the identifier ["home"],
    count in the same ledger. *)
Lemma retry_ledger_is_shared_and_only_grows_witness :
  let I := passing in
  let w := suppressed (retrying 2 (with_baseline (fresh "new"))) in
  let first :=
    configureToMatchImageSnapshot (identified_by (CsiString "home"))
      login_test "image" Options.empty no_prompt w in
  let second :=
    configureToMatchImageSnapshot in_process
      login_test "image" (identified_by (CsiString "home")) no_prompt first.2 in
  timesCalled first.2 !! "home" = Some 1
  ∧ timesCalled second.2 !! "home" = Some 2.
Proof.
  intros I w first second.
  destruct (@retry_ledger_is_shared_and_only_grows I
              (identified_by (CsiString "home")) Options.empty login_test
              "image" no_prompt w) as (_ & _ & Hone & Htwo).
  split.
  - subst first. rewrite (Hone eq_refl ltac:(discriminate) "home" _ eq_refl).
    vm_compute. reflexivity.
  - subst second first.
    rewrite (Htwo in_process (identified_by (CsiString "home")) login_test
               "image" no_prompt "home" eq_refl eq_refl ltac:(discriminate)
               eq_refl eq_refl eq_refl).
    vm_compute. reflexivity.
Defined.

(* ===================================================================== *)
(** * Further properties of [checkResult]                                 *)
(* ===================================================================== *)

Lemma checkResult_returns
    (result : Result.t) (retryTimes : Z) (id : string) (chalk : Chalk)
    (dump inline allow : bool) (w : World) :
  ∃ v,
    (checkResult result retryTimes id chalk dump inline allow w).1 = Normal v
    ∧ pass v = Result.updated result || Result.added result || Result.pass result
    ∧ (pass v = true → ∀ wr, message v wr = (Normal EmptyString, wr)).
Proof.
  destruct (Result.updated result) eqn:Hu.
  { rewrite checkResult_updated_run by exact Hu. eexists.
    split; [reflexivity |]. split; [reflexivity |]. intros _ wr. reflexivity. }
  destruct (Result.added result) eqn:Ha.
  { rewrite checkResult_added_run by assumption. eexists.
    split; [reflexivity |]. split; [reflexivity |]. intros _ wr. reflexivity. }
  destruct (Result.pass result) eqn:Hp.
  - rewrite checkResult_passed_run
      by (try exact Hp; unfold Result.compared; rewrite Hu, Ha; reflexivity).
    eexists. split; [reflexivity |]. split; [reflexivity |].
    intros _ wr. reflexivity.
  - rewrite (checkResult_failed_run _ _ _ _ _ _ _ _ Hu Ha Hp). eexists.
    split; [reflexivity |]. split; [reflexivity |]. discriminate.
Qed.

(** X1: [checkResult] never throws; its verdict passes exactly when the
    result is marked [updated] or [added] or has [pass] set, the first two
    whatever [pass] says; and the message of a passing verdict is the empty
    text. *)
Theorem checkResult_verdict
    (result : Result.t) (retryTimes : Z) (id : string) (chalk : Chalk)
    (dump inline allow : bool) (w : World) :
  ∃ v,
    (checkResult result retryTimes id chalk dump inline allow w).1 = Normal v
    ∧ pass v = Result.updated result || Result.added result || Result.pass result
    ∧ (pass v = true → ∀ wr, message v wr = (Normal EmptyString, wr)).
Proof. apply checkResult_returns. Qed.

Lemma checkResult_reporting
    (result : Result.t) (retryTimes : Z) (id : string) (chalk : Chalk)
    (dump inline allow : bool) (w : World) :
  UNSTABLE_SKIP_REPORTING w = false →
  let s := snapshotState w in
  let s' := snapshotState
              (checkResult result retryTimes id chalk dump inline allow w).2 in
  (Result.updated result = true →
   s' = SnapshotState.mk
          (SnapshotState.matched s) (SnapshotState.added s)
          (SnapshotState.updated s + 1) (SnapshotState.unmatched s)
          (SnapshotState._counters s) (SnapshotState._updateSnapshot s))
  ∧ (Result.updated result = false → Result.added result = true →
     s' = SnapshotState.mk
            (SnapshotState.matched s) (SnapshotState.added s + 1)
            (SnapshotState.updated s) (SnapshotState.unmatched s)
            (SnapshotState._counters s) (SnapshotState._updateSnapshot s))
  ∧ (Result.compared result = true → Result.pass result = true →
     s' = SnapshotState.mk
            (SnapshotState.matched s + 1) (SnapshotState.added s)
            (SnapshotState.updated s) (SnapshotState.unmatched s)
            (SnapshotState._counters s) (SnapshotState._updateSnapshot s))
  ∧ counter_sum s ≤ counter_sum s' ≤ counter_sum s + 1
  ∧ SnapshotState.matched s ≤ SnapshotState.matched s'
  ∧ SnapshotState.added s ≤ SnapshotState.added s'
  ∧ SnapshotState.updated s ≤ SnapshotState.updated s'
  ∧ SnapshotState.unmatched s ≤ SnapshotState.unmatched s'
  ∧ SnapshotState._counters s' = SnapshotState._counters s
  ∧ SnapshotState._updateSnapshot s' = SnapshotState._updateSnapshot s.
Proof.
  intros Hflag s s'. subst s s'.
  assert (Result.updated result = true ∨ Result.added result = true →
          Result.compared result = true → False) as Hno.
  { unfold Result.compared. intros [-> | ->]; cbn; [discriminate |].
    rewrite andb_false_r. discriminate. }
  destruct w as [skip rt env tc [m a u un c us] fs tf ev].
  cbn [UNSTABLE_SKIP_REPORTING] in Hflag. subst skip.
  destruct (Result.updated result) eqn:Hu.
  { rewrite checkResult_updated_run by exact Hu.
    unfold counter_sum. cbn.
    repeat split; intros; try discriminate; try reflexivity; try lia;
      exfalso; eapply Hno; eauto. }
  destruct (Result.added result) eqn:Ha.
  { rewrite checkResult_added_run by assumption.
    unfold counter_sum. cbn.
    repeat split; intros; try discriminate; try reflexivity; try lia;
      exfalso; eapply Hno; eauto. }
  destruct (Result.pass result) eqn:Hp.
  - rewrite checkResult_passed_run
      by (try exact Hp; unfold Result.compared; rewrite Hu, Ha; reflexivity).
    unfold counter_sum. cbn.
    repeat split; intros; try discriminate; try reflexivity; lia.
  - rewrite (checkResult_failed_run _ _ _ _ _ _ _ _ Hu Ha Hp).
    unfold counter_sum. cbn [snd].
    destruct (_ || _); cbn;
      repeat split; intros; try discriminate; try reflexivity; lia.
Qed.

(** X2: with reporting on, [checkResult] adds one to one counter, chosen in
    the order of the source: [updated] if the result is marked updated, even
    when it is also marked added or has failed; else [added]; else
    [matched] for a comparison that passed.  Whatever the result, the four
    counters together grow by at most one, none decreases, and the per-test
    counters and the update mode are left alone. *)
Theorem checkResult_records_one_outcome
    (result : Result.t) (retryTimes : Z) (id : string) (chalk : Chalk)
    (dump inline allow : bool) (w : World) :
  UNSTABLE_SKIP_REPORTING w = false →
  let s := snapshotState w in
  let s' := snapshotState
              (checkResult result retryTimes id chalk dump inline allow w).2 in
  (Result.updated result = true →
   s' = SnapshotState.mk
          (SnapshotState.matched s) (SnapshotState.added s)
          (SnapshotState.updated s + 1) (SnapshotState.unmatched s)
          (SnapshotState._counters s) (SnapshotState._updateSnapshot s))
  ∧ (Result.updated result = false → Result.added result = true →
     s' = SnapshotState.mk
            (SnapshotState.matched s) (SnapshotState.added s + 1)
            (SnapshotState.updated s) (SnapshotState.unmatched s)
            (SnapshotState._counters s) (SnapshotState._updateSnapshot s))
  ∧ (Result.compared result = true → Result.pass result = true →
     s' = SnapshotState.mk
            (SnapshotState.matched s + 1) (SnapshotState.added s)
            (SnapshotState.updated s) (SnapshotState.unmatched s)
            (SnapshotState._counters s) (SnapshotState._updateSnapshot s))
  ∧ counter_sum s ≤ counter_sum s' ≤ counter_sum s + 1
  ∧ SnapshotState.matched s ≤ SnapshotState.matched s'
  ∧ SnapshotState.added s ≤ SnapshotState.added s'
  ∧ SnapshotState.updated s ≤ SnapshotState.updated s'
  ∧ SnapshotState.unmatched s ≤ SnapshotState.unmatched s'
  ∧ SnapshotState._counters s' = SnapshotState._counters s
  ∧ SnapshotState._updateSnapshot s' = SnapshotState._updateSnapshot s.
Proof. apply checkResult_reporting. Qed.

(** The theorem at a result marked both updated and added, with [pass]
    unset: only [updated] counts. *)
Lemma checkResult_records_one_outcome_witness :
  snapshotState
    (checkResult
       (Result.mk true true false false S754_nan S754_nan Result.no_dimensions
          EmptyString EmptyString)
       0 "t-snap" plain false false false (fresh "new")).2
  = SnapshotState.mk 0 0 1 0 ∅ "new".
Proof.
  destruct (checkResult_records_one_outcome
              (Result.mk true true false false S754_nan S754_nan
                 Result.no_dimensions EmptyString EmptyString)
              0 "t-snap" plain false false false (fresh "new") eq_refl)
    as (Hupdated & _).
  rewrite (Hupdated eq_refl). reflexivity.
Defined.

(* ===================================================================== *)
(** * What the comparison and the review leave alone                      *)
(* ===================================================================== *)

#[global] Instance outside_only_preorder : PreOrder outside_only.
Proof.
  split.
  - intros w. split; reflexivity.
  - intros w1 w2 w3 [] []. split; congruence.
Qed.

Lemma outside_only_events (f : list Event → list Event) (w : World) :
  outside_only w (with_events f w).
Proof. split; reflexivity. Qed.

Lemma outside_only_files (f : Files → Files) (w : World) :
  outside_only w (with_files f w).
Proof. split; reflexivity. Qed.

Section OutsideOnly.

Context `{Imports}.

Lemma outside_emit (e : Event) : keeps outside_only (emit e).
Proof. intros w. apply outside_only_events. Qed.

Lemma outside_on_files (engine : Engine) (args : DiffArgs.t) :
  keeps outside_only (on_files engine args).
Proof.
  intros w. unfold on_files. destruct (engine args (files w)) as [r f].
  apply outside_only_files.
Qed.

Lemma outside_renameSync (a b : string) : keeps outside_only (renameSync a b).
Proof.
  intros w. unfold renameSync. rewrite run_bind. cbn [gets].
  destruct (files w !! a); [apply outside_only_files | reflexivity].
Qed.

Ltac keeps_outside :=
  repeat first
    [ apply (keeps_ret outside_only)
    | apply (keeps_throw outside_only)
    | apply (keeps_gets outside_only)
    | apply outside_emit
    | apply outside_renameSync
    | apply outside_on_files
    | apply (keeps_bind outside_only); [| intros ?]
    | match goal with
      | |- keeps _ (if ?b then _ else _) => destruct b
      | |- keeps _ (match ?x with _ => _ end) => destruct x
      end ].

Lemma outside_run_engine (runInProcess : bool) (args : DiffArgs.t) :
  keeps outside_only (run_engine runInProcess args).
Proof. unfold run_engine. keeps_outside. Qed.

(** A computation that keeps a relation, followed by another: either the
    first throws, or the second runs from a world the relation allows. *)
Lemma bind_cases {A B : Type} (R : World → World → Prop)
    (m : M A) (f : A → M B) (w : World) :
  keeps R m →
  (∃ e, (m ≫= f) w = (Thrown e, (m w).2) ∧ m w = (Thrown e, (m w).2)
        ∧ R w (m w).2)
  ∨ (∃ a, m w = (Normal a, (m w).2) ∧ R w (m w).2
          ∧ (m ≫= f) w = f a (m w).2).
Proof.
  intros Hm. specialize (Hm w). rewrite run_bind.
  destruct (m w) as [[a|e] w1]; cbn [snd] in *; [right | left]; eauto.
Qed.

(** From the comparison on, a call either throws with only storage and the
    events changed, or ends with [checkResult] on some result, in a world
    where only storage and the events have changed. *)
Lemma tail_cases (common options : Options.t) (this : This) (received : string)
    (io : Interaction) (retryTimes : Z) (id mode : string) (w : World) :
  let run :=
    compare_review_classify common this received options io retryTimes id mode w in
  (∃ e, run.1 = Thrown e ∧ outside_only w run.2)
  ∨ (∃ r wx,
       outside_only w wx
       ∧ run = checkResult r retryTimes id (the_chalk common options)
                 (the_dumpDiffToConsole common options)
                 (the_dumpInlineDiffToConsole common options)
                 (the_allowSizeMismatch common options) wx).
Proof.
  cbv zeta. unfold compare_review_classify.
  destruct (bind_cases outside_only
              (run_engine (the_runInProcess common options)
                 (the_diffArgs common this received options id mode))
              (λ result, review_classify common this options io retryTimes id
                           result) w
              (outside_run_engine _ _))
    as [(e & -> & _ & HR) | (r & _ & HR & ->)].
  { left. exists e. split; [reflexivity | exact HR]. }
  set (w1 := (run_engine _ _ w).2) in *.
  rewrite review_gate. left. exists type_error. split; [reflexivity | exact HR].
Qed.

End OutsideOnly.

(* ===================================================================== *)
(** * A call, case by case                                                *)
(* ===================================================================== *)

(** What [checkResult] does to the snapshot state, with reporting on or
    suppressed. *)
Lemma checkResult_state (result : Result.t) (retryTimes : Z) (id : string)
    (chalk : Chalk) (dump inline allow : bool) (w : World) :
  let s := snapshotState w in
  let s' := snapshotState
              (checkResult result retryTimes id chalk dump inline allow w).2 in
  SnapshotState.matched s ≤ SnapshotState.matched s'
  ∧ SnapshotState.added s ≤ SnapshotState.added s'
  ∧ SnapshotState.updated s ≤ SnapshotState.updated s'
  ∧ SnapshotState.unmatched s ≤ SnapshotState.unmatched s'
  ∧ counter_sum s' ≤ counter_sum s + 1
  ∧ SnapshotState._counters s' = SnapshotState._counters s
  ∧ SnapshotState._updateSnapshot s' = SnapshotState._updateSnapshot s.
Proof.
  cbv zeta. destruct (UNSTABLE_SKIP_REPORTING w) eqn:Hflag.
  - rewrite (lf_suppressed _ _ (keeps_checkResult _ _ _ _ _ _ _ w) Hflag).
    repeat split; try reflexivity; lia.
  - destruct (checkResult_reporting result retryTimes id chalk
                dump inline allow w Hflag)
      as (_ & _ & _ & [_ Hsum] & Hm & Ha & Hu & Hun & Hc & Hmode).
    repeat split; assumption.
Qed.

Section CallCases.

Context `{Imports}.
Context (common options : Options.t) (this : This) (received : string)
        (io : Interaction).

(** The world in which the baseline is looked for: the call counted, the
    ledger as the resolver left it, the baseline path marked. *)
Let resolved_world (t : gmap string Z) (id : string) (w : World) : World :=
  with_touchedFiles (λ l, app l [baselineSnapshotPath common this options id])
    (with_timesCalled (λ _, t) (counted (currentTestName this) w)).

(** The five ways a call can go. *)
Lemma call_cases (w : World) :
  let run := configureToMatchImageSnapshot common this received options io w in
  let resolution :=
    createSnapshotIdentifier (JS.or_zero (RETRY_TIMES w)) (testPath this)
      (currentTestName this) (the_customSnapshotIdentifier common options)
      (counted (currentTestName this) w) in
  (isNot this = true ∧ run = (Thrown not_error, w))
  ∨ (isNot this = false
     ∧ ((∃ e t, resolution.1 = Thrown e
                ∧ run = (Thrown e, with_timesCalled (λ _, t)
                                     (counted (currentTestName this) w)))
        ∨ (∃ id t,
             resolution.1 = Normal id
             ∧ (run.1 = Normal (mkVerdict (missing_baseline_message
                                             (the_chalk common options)) false)
                ∧ run.2 = resolved_world t id w
                ∨ (∃ e, run.1 = Thrown e
                        ∧ outside_only (resolved_world t id w) run.2)
                ∨ (∃ r wx,
                     outside_only (resolved_world t id w) wx
                     ∧ run = checkResult r (JS.or_zero (RETRY_TIMES w)) id
                               (the_chalk common options)
                               (the_dumpDiffToConsole common options)
                               (the_dumpInlineDiffToConsole common options)
                               (the_allowSizeMismatch common options) wx))))).
Proof.
  cbv zeta. rewrite matcher_run.
  destruct (isNot this); [left; split; reflexivity | right; split; [reflexivity |]].
  cbv zeta.
  destruct (resolver_only_ledger (JS.or_zero (RETRY_TIMES w)) (testPath this)
              (currentTestName this) (the_customSnapshotIdentifier common options)
              (counted (currentTestName this) w)) as [t Ht].
  destruct (createSnapshotIdentifier _ _ _ _ _) as [[id|e] w2];
    cbn [fst snd] in *; subst w2.
  2:{ left. exists e, t. split; reflexivity. }
  right. exists id, t. split; [reflexivity |].
  fold (resolved_world t id w).
  destruct (String.eqb _ _ && negb _).
  - left. split; reflexivity.
  - right.
    destruct (tail_cases common options this received io
                (JS.or_zero (RETRY_TIMES w)) id
                (SnapshotState._updateSnapshot
                   (snapshotState (resolved_world t id w)))
                (resolved_world t id w)) as [Hthrown | Hchecked].
    + left. exact Hthrown.
    + right. exact Hchecked.
Qed.

(** The snapshot state after a call: the call counted, and then at most
    the effect of one [checkResult]. *)
Lemma call_state (w : World) :
  let run := configureToMatchImageSnapshot common this received options io w in
  let s := snapshotState w in
  let s' := snapshotState run.2 in
  (SnapshotState.matched s ≤ SnapshotState.matched s'
   ∧ SnapshotState.added s ≤ SnapshotState.added s'
   ∧ SnapshotState.updated s ≤ SnapshotState.updated s'
   ∧ SnapshotState.unmatched s ≤ SnapshotState.unmatched s'
   ∧ counter_sum s' ≤ counter_sum s + 1)
  ∧ (∀ e, run.1 = Thrown e →
       SnapshotState.matched s' = SnapshotState.matched s
       ∧ SnapshotState.added s' = SnapshotState.added s
       ∧ SnapshotState.updated s' = SnapshotState.updated s
       ∧ SnapshotState.unmatched s' = SnapshotState.unmatched s)
  ∧ SnapshotState._updateSnapshot s' = SnapshotState._updateSnapshot s
  ∧ SnapshotState._counters s'
    = if isNot this then SnapshotState._counters s
      else <[currentTestName this :=
               JS.or_zero (SnapshotState._counters s !! currentTestName this) + 1]>
             (SnapshotState._counters s).
Proof.
  cbv zeta.
  destruct (call_cases w)
    as [[Hnot ->]
       | [Hnot [(e & t & _ & ->)
               | (id & t & _ & [[Hv ->] | [(e & He & HR) | (r & wx & HR & ->)]])]]];
    rewrite Hnot; cbn [fst snd]; unfold counter_sum in *.
  - (split; [repeat split; try reflexivity; lia |];
     split; [intros; repeat split; reflexivity |]; split; reflexivity).
  - cbn. (split; [repeat split; try reflexivity; lia |];
     split; [intros; repeat split; reflexivity |]; split; reflexivity).
  - cbn. (split; [repeat split; try reflexivity; lia |];
     split; [intros; repeat split; reflexivity |]; split; reflexivity).
  - rewrite (oo_state _ _ HR). cbn. (split; [repeat split; try reflexivity; lia |];
     split; [intros; repeat split; reflexivity |]; split; reflexivity).
  - destruct (checkResult_state r (JS.or_zero (RETRY_TIMES w)) id
                (the_chalk common options)
                (the_dumpDiffToConsole common options)
                (the_dumpInlineDiffToConsole common options)
                (the_allowSizeMismatch common options) wx)
      as (Hm & Ha & Hu & Hun & Hsum & Hc & Hmode).
    rewrite (oo_state _ _ HR) in Hm, Ha, Hu, Hun, Hsum, Hc, Hmode.
    cbn in Hm, Ha, Hu, Hun, Hsum, Hc, Hmode.
    split; [repeat split; assumption |].
    split; [| split; assumption].
    intros e He.
    destruct (checkResult_returns r (JS.or_zero (RETRY_TIMES w)) id
                (the_chalk common options)
                (the_dumpDiffToConsole common options)
                (the_dumpInlineDiffToConsole common options)
                (the_allowSizeMismatch common options) wx) as (v & Hv & _).
    rewrite Hv in He. discriminate.
Qed.

End CallCases.

(** [checkResult] writes to the snapshot state and to nothing else. *)
Lemma checkResult_only_state (result : Result.t) (retryTimes : Z) (id : string)
    (chalk : Chalk) (dump inline allow : bool) (w : World) :
  ∃ s', (checkResult result retryTimes id chalk dump inline allow w).2
        = with_snapshotState (λ _, s') w.
Proof.
  assert (∀ p, ∃ s', merged p w = with_snapshotState (λ _, s') w) as Hmerged.
  { intros p. unfold merged. destruct w as [[] rt env tc st fs tf ev];
      eexists; reflexivity. }
  destruct (Result.updated result) eqn:Hu;
    [rewrite checkResult_updated_run by exact Hu; apply Hmerged |].
  destruct (Result.added result) eqn:Ha;
    [rewrite checkResult_added_run by assumption; apply Hmerged |].
  destruct (Result.pass result) eqn:Hp.
  - rewrite checkResult_passed_run
      by (try exact Hp; unfold Result.compared; rewrite Hu, Ha; reflexivity).
    apply Hmerged.
  - rewrite (checkResult_failed_run _ _ _ _ _ _ _ _ Hu Ha Hp). cbn [snd].
    destruct (_ || _); [apply Hmerged |].
    exists (snapshotState w). destruct w; reflexivity.
Qed.

Section CallFrame.

Context `{Imports}.
Context (common options : Options.t) (this : This) (received : string)
        (io : Interaction).

(** What a call leaves of the world besides the snapshot state, storage
    and the events. *)
Lemma call_rest (w : World) :
  let run := configureToMatchImageSnapshot common this received options io w in
  UNSTABLE_SKIP_REPORTING run.2 = UNSTABLE_SKIP_REPORTING w
  ∧ RETRY_TIMES run.2 = RETRY_TIMES w
  ∧ process_env run.2 = process_env w
  ∧ touchedFiles run.2
    = if isNot this then touchedFiles w
      else match
             (createSnapshotIdentifier (JS.or_zero (RETRY_TIMES w)) (testPath this)
                (currentTestName this) (the_customSnapshotIdentifier common options)
                (counted (currentTestName this) w)).1
           with
           | Normal id =>
               app (touchedFiles w) [baselineSnapshotPath common this options id]
           | Thrown _ => touchedFiles w
           end.
Proof.
  cbv zeta.
  destruct (call_cases common options this received io w)
    as [[Hnot ->]
       | [Hnot [(e & t & Hres & ->)
               | (id & t & Hres
                    & [[Hv ->] | [(e & He & HR) | (r & wx & HR & ->)]])]]];
    rewrite Hnot; try rewrite Hres; cbn [fst snd].
  - repeat split; reflexivity.
  - repeat split; reflexivity.
  - repeat split; reflexivity.
  - rewrite (oo_flag _ _ HR), (oo_retry _ _ HR), (oo_env _ _ HR),
      (oo_touched _ _ HR).
    repeat split; reflexivity.
  - destruct (checkResult_only_state r (JS.or_zero (RETRY_TIMES w)) id
                (the_chalk common options)
                (the_dumpDiffToConsole common options)
                (the_dumpInlineDiffToConsole common options)
                (the_allowSizeMismatch common options) wx) as [s' ->].
    cbn [with_snapshotState UNSTABLE_SKIP_REPORTING RETRY_TIMES process_env
         touchedFiles].
    rewrite (oo_flag _ _ HR), (oo_retry _ _ HR), (oo_env _ _ HR),
      (oo_touched _ _ HR).
    repeat split; reflexivity.
Qed.

End CallFrame.

(* ===================================================================== *)
(** * Further properties of a call                                        *)
(* ===================================================================== *)

Section CallProperties.

Context `{Imports}.

(** X3: a call never decreases [matched], [added], [updated] or
    [unmatched], and adds at most one to the four together; a call that
    throws adds nothing to them. *)
Theorem call_records_at_most_one_outcome
    (common options : Options.t) (this : This) (received : string)
    (io : Interaction) (w : World) :
  let run := configureToMatchImageSnapshot common this received options io w in
  let s := snapshotState w in
  let s' := snapshotState run.2 in
  SnapshotState.matched s ≤ SnapshotState.matched s'
  ∧ SnapshotState.added s ≤ SnapshotState.added s'
  ∧ SnapshotState.updated s ≤ SnapshotState.updated s'
  ∧ SnapshotState.unmatched s ≤ SnapshotState.unmatched s'
  ∧ counter_sum s' ≤ counter_sum s + 1
  ∧ (∀ e, run.1 = Thrown e →
       SnapshotState.matched s' = SnapshotState.matched s
       ∧ SnapshotState.added s' = SnapshotState.added s
       ∧ SnapshotState.updated s' = SnapshotState.updated s
       ∧ SnapshotState.unmatched s' = SnapshotState.unmatched s).
Proof.
  destruct (call_state common options this received io w)
    as ((Hm & Ha & Hu & Hun & Hsum) & Hthrown & _).
  cbv zeta. repeat split; try assumption; apply (Hthrown e); assumption.
Qed.

(** X4: a call reads and never writes [global.UNSTABLE_SKIP_REPORTING], the
    retry signal, [process.env] and the update mode of the snapshot state. *)
Theorem call_leaves_settings_alone
    (common options : Options.t) (this : This) (received : string)
    (io : Interaction) (w : World) :
  let run := configureToMatchImageSnapshot common this received options io w in
  UNSTABLE_SKIP_REPORTING run.2 = UNSTABLE_SKIP_REPORTING w
  ∧ RETRY_TIMES run.2 = RETRY_TIMES w
  ∧ process_env run.2 = process_env w
  ∧ SnapshotState._updateSnapshot (snapshotState run.2)
    = SnapshotState._updateSnapshot (snapshotState w).
Proof.
  destruct (call_rest common options this received io w) as (Hf & Hr & He & _).
  destruct (call_state common options this received io w) as (_ & _ & Hmode & _).
  cbv zeta. repeat split; assumption.
Qed.

(** X5: a call that is not negated and whose identifier is resolved marks
    the baseline path of that identifier as touched, once, whether it then
    meets a missing baseline, throws or returns; a negated call, and a call
    whose resolution throws, mark nothing. *)
Theorem call_marks_the_baseline
    (common options : Options.t) (this : This) (received : string)
    (io : Interaction) (w : World) :
  touchedFiles
    (configureToMatchImageSnapshot common this received options io w).2
  = if isNot this then touchedFiles w
    else match
           (createSnapshotIdentifier (JS.or_zero (RETRY_TIMES w)) (testPath this)
              (currentTestName this) (the_customSnapshotIdentifier common options)
              (counted (currentTestName this) w)).1
         with
         | Normal id =>
             app (touchedFiles w) [baselineSnapshotPath common this options id]
         | Thrown _ => touchedFiles w
         end.
Proof. apply (call_rest common options this received io w). Qed.

(** X6: a negated call throws at once: nothing is counted, nothing is
    resolved, compared or shown, and the world is as it was. *)
Theorem negated_call_throws_first
    (common options : Options.t) (this : This) (received : string)
    (io : Interaction) (w : World) :
  isNot this = true →
  configureToMatchImageSnapshot common this received options io w
  = (Thrown not_error, w).
Proof. intros Hnot. rewrite matcher_run, Hnot. reflexivity. Qed.

End CallProperties.

(** The theorem at a negated call of [login_test] under retries and
    without a custom identifier: the error is the one of [.not], not the
    one of the retries. *)
Lemma negated_call_throws_first_witness :
  @toMatchImageSnapshot passing
    (mkThis "/p/a.spec.js" "login...shows the form" true)
    "image" Options.empty no_prompt (retrying 2 (fresh "new"))
  = (Thrown "Jest: `.not` cannot be used with `.toMatchImageSnapshot()`.",
     retrying 2 (fresh "new")).
Proof.
  apply (@negated_call_throws_first passing Options.empty Options.empty
           (mkThis "/p/a.spec.js" "login...shows the form" true)
           "image" no_prompt (retrying 2 (fresh "new"))).
  reflexivity.
Defined.

(* ===================================================================== *)
(** * The calls of a test, one after the other                            *)
(* ===================================================================== *)

Section Series.

Context `{Imports}.

(** X7: the per-test counter of the snapshot state counts the calls: after
    any series of calls, of any matchers and with any outcomes, the counter
    of a test has grown by the number of calls of that test that were not
    negated. *)
Theorem invocation_counter_counts_the_calls
    (cs : list Call) (name : string) (w : World) :
  JS.or_zero
    (SnapshotState._counters (snapshotState (after_calls cs w)) !! name)
  = JS.or_zero (SnapshotState._counters (snapshotState w) !! name)
    + Z.of_nat (length (List.filter (counts_for name) cs)).
Proof.
  revert w. induction cs as [|c cs IH]; intros w.
  - cbn. lia.
  - cbn [after_calls fold_left]. fold (after_calls cs (after_call c w)).
    rewrite IH. clear IH. cbn [List.filter].
    destruct (call_state (call_common c) (call_options c) (call_this c)
                (call_received c) (call_io c) w) as (_ & _ & _ & Hcounters).
    cbv zeta in Hcounters. unfold after_call. rewrite Hcounters.
    unfold counts_for.
    destruct (isNot (call_this c)); cbn [negb andb]; [cbn; lia |].
    destruct (String.eqb_spec (currentTestName (call_this c)) name) as [-> | Hne].
    + rewrite lookup_insert_eq. cbn [length JS.or_zero]. lia.
    + rewrite lookup_insert_ne by exact Hne. cbn. lia.
Qed.

End Series.

(* ===================================================================== *)
(** * Options of the configuration and options of the call                *)
(* ===================================================================== *)

Lemma pick_override {A : Type} (call common : option A) (dflt : A) :
  pick (pick_opt call common) None dflt = pick call common dflt.
Proof. destruct call, common; reflexivity. Qed.

Lemma pick_opt_override {A : Type} (call common : option A) :
  pick_opt (pick_opt call common) None = pick_opt call common.
Proof. destruct call, common; reflexivity. Qed.

Section Override.

Context `{Imports}.
Context (common options : Options.t) (this : This) (received : string)
        (io : Interaction).

Lemma override_customSnapshotIdentifier :
  the_customSnapshotIdentifier Options.empty (override options common)
  = the_customSnapshotIdentifier common options.
Proof.
  unfold the_customSnapshotIdentifier, override. cbn.
  destruct (Options.customSnapshotIdentifier options); [| reflexivity ..].
  destruct (Options.customSnapshotIdentifier common); reflexivity.
Qed.

Lemma override_chalk :
  the_chalk Options.empty (override options common) = the_chalk common options.
Proof.
  unfold the_chalk, override. cbn -[pick pick_opt].
  rewrite pick_opt_override. reflexivity.
Qed.

Lemma override_snapshotsDir :
  the_snapshotsDir Options.empty this (override options common)
  = the_snapshotsDir common this options.
Proof.
  unfold the_snapshotsDir, override. cbn -[pick pick_opt]. rewrite pick_opt_override. reflexivity.
Qed.

Lemma override_receivedDir :
  the_receivedDir Options.empty this (override options common)
  = the_receivedDir common this options.
Proof.
  unfold the_receivedDir, override. cbn -[pick pick_opt]. rewrite pick_opt_override. reflexivity.
Qed.

Lemma override_diffDir :
  the_diffDir Options.empty this (override options common)
  = the_diffDir common this options.
Proof.
  unfold the_diffDir, override. cbn -[pick pick_opt]. rewrite pick_opt_override. reflexivity.
Qed.

Lemma override_receivedPostfix :
  the_receivedPostfix Options.empty (override options common)
  = the_receivedPostfix common options.
Proof.
  unfold the_receivedPostfix, override. cbn -[pick pick_opt]. rewrite pick_override. reflexivity.
Qed.

Lemma override_flags :
  the_runInProcess Options.empty (override options common)
    = the_runInProcess common options
  ∧ the_dumpDiffToConsole Options.empty (override options common)
    = the_dumpDiffToConsole common options
  ∧ the_dumpInlineDiffToConsole Options.empty (override options common)
    = the_dumpInlineDiffToConsole common options
  ∧ the_allowSizeMismatch Options.empty (override options common)
    = the_allowSizeMismatch common options.
Proof.
  unfold the_runInProcess, the_dumpDiffToConsole, the_dumpInlineDiffToConsole,
    the_allowSizeMismatch, override. cbn -[pick pick_opt].
  rewrite !pick_override. repeat split; reflexivity.
Qed.

Lemma override_diffArgs (id mode : string) :
  the_diffArgs Options.empty this received (override options common) id mode
  = the_diffArgs common this received options id mode.
Proof.
  destruct override_flags as (_ & _ & _ & Hallow).
  unfold the_diffArgs.
  rewrite override_snapshotsDir, override_receivedDir, override_diffDir,
    override_receivedPostfix, Hallow.
  unfold override. cbn -[pick pick_opt].
  rewrite !pick_override, (right_id_L ∅ (∪)). reflexivity.
Qed.

(** X8: the options given to [configureToMatchImageSnapshot] are defaults
    of the calls and nothing more: a call of the configured matcher is the
    call of the plain matcher with the options of the call laid over those
    of the configuration, field by field, the entries of the two
    [customDiffConfig] joined with those of the call winning. *)
Theorem configured_call_is_plain_call_with_overridden_options (w : World) :
  configureToMatchImageSnapshot common this received options io w
  = toMatchImageSnapshot this received (override options common) io w.
Proof.
  destruct override_flags as (Hrun & Hdump & Hinline & Hallow).
  unfold toMatchImageSnapshot. rewrite !matcher_run.
  unfold compare_review_classify, review_classify, baselineSnapshotPath,
    receivedSnapshotPath.
  rewrite override_customSnapshotIdentifier, override_chalk,
    override_snapshotsDir, override_receivedDir, override_diffDir,
    override_receivedPostfix, Hrun, Hdump, Hinline, Hallow.
  destruct (isNot this); [reflexivity |]. cbv zeta.
  destruct (createSnapshotIdentifier _ _ _ _ _) as [[id|e] w2]; [| reflexivity].
  destruct (String.eqb _ _ && negb _); [reflexivity |].
  rewrite override_diffArgs. reflexivity.
Qed.

End Override.

(* ===================================================================== *)
(** * Attempts, errors of the comparison, and storage                     *)
(* ===================================================================== *)

Lemma merged_ledger (p : SnapshotState.partial) (w : World) :
  timesCalled (merged p w) = timesCalled w.
Proof. unfold merged. destruct (UNSTABLE_SKIP_REPORTING w); reflexivity. Qed.

Section Attempts.

Context `{Imports}.

(** X9: under retries the attempt that [checkResult] compares with
    [retryTimes] includes the resolution just made.  When
    [createSnapshotIdentifier] resolves [id] in a world whose ledger holds
    [n] for it (nothing counting as 0), it leaves [n + 1] there; and
    [checkResult], run in that world on a failed comparison, returns a
    failing verdict and increments [unmatched] exactly when
    [n + 1 > retryTimes]. *)
Theorem failed_attempt_is_recorded_after_the_retries
    (retryTimes : Z) (file name : string) (c : CustomSnapshotIdentifier)
    (result : Result.t) (chalk : Chalk) (dump inline allow : bool)
    (w : World) (id : string) :
  retryTimes ≠ 0 →
  UNSTABLE_SKIP_REPORTING w = false →
  Result.compared result = true →
  Result.pass result = false →
  let resolution := createSnapshotIdentifier retryTimes file name c w in
  resolution.1 = Normal id →
  let run := checkResult result retryTimes id chalk dump inline allow
               resolution.2 in
  let attempt := JS.or_zero (timesCalled w !! id) + 1 in
  timesCalled run.2 !! id = Some attempt
  ∧ (∃ v, run.1 = Normal v ∧ pass v = false)
  ∧ SnapshotState.unmatched (snapshotState run.2)
    = if retryTimes <? attempt
      then SnapshotState.unmatched (snapshotState w) + 1
      else SnapshotState.unmatched (snapshotState w).
Proof.
  intros Hretry Hflag Hc Hp. cbv zeta. intros Hres.
  destruct (resolver_world retryTimes file name c w) as (_ & Hattempted & _).
  rewrite (Hattempted Hretry id Hres).
  assert (timesCalled (attempted id w) !! id
          = Some (JS.or_zero (timesCalled w !! id) + 1)) as Hledger
    by apply lookup_insert_eq.
  unfold Result.compared in Hc. apply andb_true_iff in Hc as [Hu Ha].
  apply negb_true_iff in Hu, Ha.
  rewrite (checkResult_failed_run _ _ _ _ _ _ _ _ Hu Ha Hp). cbn [fst snd].
  rewrite Hledger. cbn [JS.gt].
  replace (retryTimes =? 0) with false
    by (symmetry; apply Z.eqb_neq; exact Hretry).
  cbn [orb].
  split; [| split; [eexists; split; reflexivity |]].
  - destruct (_ <? _); [rewrite merged_ledger |]; exact Hledger.
  - destruct (_ <? _); [| reflexivity].
    rewrite merged_state.
    replace (UNSTABLE_SKIP_REPORTING (attempted id w)) with false
      by (symmetry; exact Hflag).
    reflexivity.
Qed.

End Attempts.

Section ComparisonErrors.

Context `{Imports}.
Context (common options : Options.t) (this : This) (received : string)
        (io : Interaction).

(** X10: an error thrown by the comparison is the error of the call: the
    call is counted and the baseline path marked as touched, storage is as
    the comparison left it, nothing is shown, and no outcome is recorded. *)
Theorem comparison_error_is_rethrown
    (w : World) (id : string) (e : string) (f : Files) :
  isNot this = false →
  (createSnapshotIdentifier (JS.or_zero (RETRY_TIMES w)) (testPath this)
     (currentTestName this) (the_customSnapshotIdentifier common options)
     (counted (currentTestName this) w)).1 = Normal id →
  baseline_missing common options this id w = false →
  the_comparison common options this received id w = (Thrown e, f) →
  let run := configureToMatchImageSnapshot common this received options io w in
  run.1 = Thrown e
  ∧ files run.2 = f
  ∧ events run.2
    = app (events w) [compare_images (the_runInProcess common options) id]
  ∧ snapshotState run.2 = snapshotState (counted (currentTestName this) w)
  ∧ touchedFiles run.2
    = app (touchedFiles w) [baselineSnapshotPath common this options id].
Proof.
  intros Hnot Hres Hgate Hengine. cbv zeta.
  unfold baseline_missing in Hgate. unfold the_comparison in Hengine.
  rewrite matcher_run, Hnot. cbv zeta.
  destruct (resolver_only_ledger (JS.or_zero (RETRY_TIMES w)) (testPath this)
              (currentTestName this) (the_customSnapshotIdentifier common options)
              (counted (currentTestName this) w)) as [t Ht].
  destruct (createSnapshotIdentifier _ _ _ _ _) as [[id'|e'] w2];
    cbn [fst snd] in *; [| discriminate].
  injection Hres as ->. subst w2.
  cbn [snapshotState with_touchedFiles with_timesCalled counted
       with_snapshotState files SnapshotState._updateSnapshot
       SnapshotState.set_counters] in *.
  rewrite Hgate.
  unfold compare_review_classify, run_engine.
  rewrite run_bind, run_bind. unfold emit at 1. cbn [modify].
  unfold on_files.
  cbn [files with_events with_touchedFiles with_timesCalled counted
       with_snapshotState snapshotState SnapshotState._updateSnapshot
       SnapshotState.set_counters].
  cbn. rewrite !Hengine. repeat split; reflexivity.
Qed.

End ComparisonErrors.

(** The theorem at a second attempt under [retryTimes = 1]: the ledger
    counts 2 for ["home"], the verdict fails and [unmatched] is 1. *)
Lemma failed_attempt_is_recorded_after_the_retries_witness :
  let I := passing in
  let w := attempted "home" (fresh "new") in
  let resolution :=
    createSnapshotIdentifier 1 "/p/a.spec.js" "login...shows the form"
      (CsiString "home") w in
  let run := checkResult r_fail 1 "home" plain false false false resolution.2 in
  timesCalled run.2 !! "home" = Some 2
  ∧ (∃ v, run.1 = Normal v ∧ pass v = false)
  ∧ SnapshotState.unmatched (snapshotState run.2) = 1.
Proof.
  intros I w.
  apply (@failed_attempt_is_recorded_after_the_retries I 1 "/p/a.spec.js"
           "login...shows the form" (CsiString "home") r_fail plain
           false false false w "home");
    solve [reflexivity | discriminate].
Defined.

(** The theorem at a comparison that cannot be started. *)
Lemma comparison_error_is_rethrown_witness :
  let run := @toMatchImageSnapshot crashing login_test "image" Options.empty
               no_prompt (fresh "new") in
  run.1 = Thrown "spawn ENOENT"
  ∧ files run.2 = ∅
  ∧ events run.2 = [compare_images false "shows the form-snap"]
  ∧ snapshotState run.2
    = snapshotState (counted "login...shows the form" (fresh "new"))
  ∧ touchedFiles run.2 = [baseline_file].
Proof.
  apply (@comparison_error_is_rethrown crashing Options.empty Options.empty
           login_test "image" no_prompt (fresh "new") "shows the form-snap"
           "spawn ENOENT" ∅); vm_compute; reflexivity.
Defined.

(* ===================================================================== *)
(** * Storage                                                             *)
(* ===================================================================== *)

Section Storage.

Context `{Imports}.

Context (common options : Options.t) (this : This) (received : string)
        (io : Interaction).

(** X11: the matcher writes nothing of its own unless the update is
    confirmed.  Storage after the call is what the comparison left, if the
    call reached it, and what it was before the call otherwise, whatever
    the comparison returned and however the prompts ended. *)
Theorem storage_is_what_the_comparison_left (w : World) :
  updateRace io ≠ Answered true →
  let run := configureToMatchImageSnapshot common this received options io w in
  let resolution :=
    createSnapshotIdentifier (JS.or_zero (RETRY_TIMES w)) (testPath this)
      (currentTestName this) (the_customSnapshotIdentifier common options)
      (counted (currentTestName this) w) in
  files run.2
  = match resolution.1 with
    | Normal id =>
        if isNot this || baseline_missing common options this id w
        then files w
        else (the_comparison common options this received id w).2
    | Thrown _ => files w
    end.
Proof.
  intros Hupdate. cbv zeta. rewrite matcher_run.
  destruct (isNot this).
  { destruct (createSnapshotIdentifier _ _ _ _ _).1; reflexivity. }
  cbv zeta.
  destruct (resolver_only_ledger (JS.or_zero (RETRY_TIMES w)) (testPath this)
              (currentTestName this) (the_customSnapshotIdentifier common options)
              (counted (currentTestName this) w)) as [t Ht].
  destruct (createSnapshotIdentifier _ _ _ _ _) as [[id|e] w2];
    cbn [fst snd] in *; subst w2; [| reflexivity].
  unfold baseline_missing. cbn [orb].
  cbn [snapshotState with_touchedFiles with_timesCalled counted
       with_snapshotState files SnapshotState._updateSnapshot
       SnapshotState.set_counters].
  destruct (String.eqb _ _ && negb _); [reflexivity |].
  destruct (the_comparison common options this received id w)
    as [c f] eqn:Hengine.
  unfold the_comparison in Hengine.
  unfold compare_review_classify, run_engine.
  rewrite run_bind, run_bind. unfold emit at 1. cbn [modify].
  unfold on_files.
  cbn [files with_events with_touchedFiles with_timesCalled counted
       with_snapshotState snapshotState SnapshotState._updateSnapshot
       SnapshotState.set_counters].
  rewrite Hengine. destruct c as [result|e]; [| reflexivity].
  cbn [fst snd]. rewrite review_gate. reflexivity.
Qed.

End Storage.

(** The theorem at a failed comparison of [login_test], both timers set
    to fire first: the received file that the comparison wrote is all that
    changed. *)
Lemma storage_is_what_the_comparison_left_witness :
  let w := with_baseline (fresh "new") in
  let run := @toMatchImageSnapshot failing login_test "image" Options.empty
               no_prompt w in
  files run.2 = <[received_file := "received"]> (files w).
Proof.
  intros w run. subst run. unfold toMatchImageSnapshot.
  rewrite (@storage_is_what_the_comparison_left failing Options.empty
             Options.empty login_test "image" no_prompt w)
    by discriminate.
  vm_compute. reflexivity.
Defined.

(* ===================================================================== *)
(** * The pieces of the test name                                         *)
(* ===================================================================== *)

Lemma split_go_without_separator (sep s : string) (cur : list ascii) :
  JS.includes sep s = false →
  JS.split_go sep 0 cur s
  = [string_of_list_ascii (app (rev cur) (list_ascii_of_string s))].
Proof.
  revert cur. induction s as [| c s IH]; intros cur Hno.
  - cbn. rewrite app_nil_r. reflexivity.
  - cbn [JS.includes] in Hno. apply orb_false_iff in Hno as [Hprefix Hrest].
    cbn [JS.split_go]. rewrite Hprefix, (IH (c :: cur) Hrest).
    cbn [rev list_ascii_of_string]. rewrite <- app_assoc. reflexivity.
Qed.

Lemma split_without_separator (sep s : string) :
  JS.includes sep s = false → JS.split sep s = [s].
Proof.
  intros Hno. unfold JS.split. rewrite split_go_without_separator by exact Hno.
  cbn [rev app]. rewrite string_of_list_ascii_of_string. reflexivity.
Qed.

Lemma split_go_no_dot (a rest : string) (cur : list ascii) :
  no_dot a = true →
  JS.split_go "..." 0 cur (a +:+ "..." +:+ rest)
  = string_of_list_ascii (app (rev cur) (list_ascii_of_string a))
      :: JS.split_go "..." 0 [] rest.
Proof.
  revert cur. induction a as [| c a IH]; intros cur Hno.
  - change ("" +:+ "..." +:+ rest) with (String "." (String "." (String "." rest))).
    cbn [list_ascii_of_string]. rewrite app_nil_r.
    destruct rest; reflexivity.
  - cbn [no_dot] in Hno. apply andb_true_iff in Hno as [Hc Ha].
    apply negb_true_iff, Ascii.eqb_neq in Hc.
    rewrite append_cons. cbn [JS.split_go String.prefix].
    destruct (ascii_dec "." c) as [E | _]; [congruence |].
    rewrite (IH (c :: cur) Ha).
    cbn [rev list_ascii_of_string]. rewrite <- app_assoc. reflexivity.
Qed.

Lemma split_no_dot (a rest : string) :
  no_dot a = true →
  JS.split "..." (a +:+ "..." +:+ rest) = a :: JS.split "..." rest.
Proof.
  intros Hno. unfold JS.split. rewrite split_go_no_dot by exact Hno.
  cbn [rev app]. rewrite string_of_list_ascii_of_string. reflexivity.
Qed.

Section TestNames.

Context `{Imports}.

(** X12: a test name that does not contain ["..."] has no second piece.
    Without a custom identifier and without retries the snapshot is then
    called ["undefined-snap"], whatever the test, and the whole name is
    taken for the describe block. *)
Theorem name_without_separator_gives_undefined_snap
    (this : This) (w : World) :
  JS.includes "..." (currentTestName this) = false →
  createSnapshotIdentifier 0 (testPath this) (currentTestName this)
    CsiUndefined w
  = (Normal "undefined-snap", w)
  ∧ the_describeName this = currentTestName this.
Proof.
  intros Hno. rewrite resolve_without_retries.
  unfold leaf_title, the_describeName.
  rewrite (split_without_separator _ _ Hno). split; reflexivity.
Qed.

(** X13: of a test name only the first two pieces are used.  For the name
    [d...t...rest], where [d] and [t] hold no dot, the describe block is
    [d] and the default identifier is [t-snap]: what follows the second
    ["..."] enters neither, so the tests [d...t...x] and [d...t...y] of
    one file have the same baseline. *)
Theorem pieces_after_the_second_are_dropped
    (common options : Options.t) (file d t rest : string) (negated : bool)
    (w : World) :
  no_dot d = true →
  no_dot t = true →
  let this := mkThis file (d +:+ "..." +:+ t +:+ "..." +:+ rest) negated in
  createSnapshotIdentifier 0 file (currentTestName this) CsiUndefined w
  = (Normal (t +:+ "-snap"), w)
  ∧ the_describeName this = d
  ∧ baselineSnapshotPath common this options (t +:+ "-snap")
    = baselineSnapshotPath common (mkThis file (d +:+ "..." +:+ t) negated)
        options (t +:+ "-snap").
Proof.
  intros Hd Ht. cbv zeta. rewrite resolve_without_retries.
  unfold baselineSnapshotPath, the_snapshotsDir, the_describeName, leaf_title.
  cbn [currentTestName testPath].
  rewrite !(split_no_dot d) by exact Hd.
  rewrite (split_no_dot t) by exact Ht.
  repeat split; reflexivity.
Qed.

(** X14: an empty string given as [customSnapshotIdentifier] is no
    identifier for the resolver, with retries (the error) and without
    (the default); given in the options of the call it still replaces the
    identifier of the configuration, so the call runs as one for which
    neither gave an identifier. *)
Theorem empty_identifier_hides_the_configured_one
    (common options : Options.t) (this : This) (received : string)
    (io : Interaction) (w : World) :
  Options.customSnapshotIdentifier options = CsiString "" →
  configureToMatchImageSnapshot common this received options io w
  = configureToMatchImageSnapshot (without_identifier common) this received
      (without_identifier options) io w.
Proof.
  intros Hempty.
  destruct options as [o1 o2 o3 o4 o5 o6 o7 o8 o9 o10 o11 o12 o13 o14 o15 o16
                         o17 o18 o19].
  destruct common as [c1 c2 c3 c4 c5 c6 c7 c8 c9 c10 c11 c12 c13 c14 c15 c16
                        c17 c18 c19].
  cbn [Options.customSnapshotIdentifier] in Hempty. subst o2.
  rewrite !matcher_run.
  unfold the_customSnapshotIdentifier, without_identifier.
  cbn [Options.customSnapshotIdentifier].
  replace (createSnapshotIdentifier (JS.or_zero (RETRY_TIMES w)) (testPath this)
             (currentTestName this) (CsiString "")
             (counted (currentTestName this) w))
    with (createSnapshotIdentifier (JS.or_zero (RETRY_TIMES w)) (testPath this)
            (currentTestName this) CsiUndefined
            (counted (currentTestName this) w))
    by reflexivity.
  reflexivity.
Qed.

End TestNames.

(** The theorem at a test of a file without describe block. *)
Lemma name_without_separator_gives_undefined_snap_witness :
  let I := passing in
  createSnapshotIdentifier 0 "/p/a.spec.js" "shows the form" CsiUndefined
    (fresh "new")
  = (Normal "undefined-snap", fresh "new")
  ∧ the_describeName (mkThis "/p/a.spec.js" "shows the form" false)
    = "shows the form".
Proof.
  intros I.
  apply (@name_without_separator_gives_undefined_snap I
           (mkThis "/p/a.spec.js" "shows the form" false) (fresh "new")).
  reflexivity.
Defined.

(** The theorem at a test in a describe block nested in another. *)
Lemma pieces_after_the_second_are_dropped_witness :
  let I := passing in
  let this := mkThis "/p/a.spec.js" "login...form...shows the errors" false in
  createSnapshotIdentifier 0 "/p/a.spec.js" (currentTestName this) CsiUndefined
    (fresh "new")
  = (Normal "form-snap", fresh "new")
  ∧ the_describeName this = "login"
  ∧ baselineSnapshotPath Options.empty this Options.empty "form-snap"
    = baselineSnapshotPath Options.empty
        (mkThis "/p/a.spec.js" "login...form" false) Options.empty "form-snap".
Proof.
  intros I.
  apply (@pieces_after_the_second_are_dropped I Options.empty Options.empty
           "/p/a.spec.js" "login" "form" "shows the errors" false (fresh "new"));
    reflexivity.
Defined.

(** The theorem at a matcher configured with the identifier ["home"] and
    called with the empty one: the snapshot is the default one. *)
Lemma empty_identifier_hides_the_configured_one_witness :
  let I := passing in
  let run := configureToMatchImageSnapshot (identified_by (CsiString "home"))
               login_test "image" (identified_by (CsiString "")) no_prompt
               (with_baseline (fresh "new")) in
  run = toMatchImageSnapshot login_test "image" Options.empty no_prompt
          (with_baseline (fresh "new"))
  ∧ events run.2 = [compare_images false "shows the form-snap"].
Proof.
  intros I run. subst run.
  rewrite (@empty_identifier_hides_the_configured_one I
             (identified_by (CsiString "home")) (identified_by (CsiString ""))
             login_test "image" no_prompt (with_baseline (fresh "new")) eq_refl).
  split; [reflexivity | vm_compute; reflexivity].
Defined.

(* ===================================================================== *)
(** * [updateSnapshotState] on its own                                    *)
(* ===================================================================== *)

Lemma merged_twice (p : SnapshotState.partial) (w : World) :
  merged p (merged p w) = merged p w.
Proof.
  unfold merged. destruct w as [skip rt env tc st fs tf ev].
  destruct skip; cbn; [reflexivity |].
  destruct p as [[m|] [a|] [u|] [un|] [c|]]; destruct st; reflexivity.
Qed.

(** X15: [updateSnapshotState] returns the session's own state, as it is
    after the call, and nothing else of the session changes; a second
    call with the same fields changes nothing more. *)
Theorem updateSnapshotState_returns_the_state_and_is_idempotent
    (p : SnapshotState.partial) (w : World) :
  let run := updateSnapshotState p w in
  run.1 = Normal (snapshotState run.2)
  ∧ run.2 = with_snapshotState (λ _, snapshotState run.2) w
  ∧ updateSnapshotState p run.2 = run.
Proof.
  cbv zeta. rewrite !updateSnapshotState_run. cbn [fst snd].
  rewrite merged_twice. repeat split.
  unfold merged. destruct w as [skip rt env tc st fs tf ev].
  destruct skip; reflexivity.
Qed.

(* ===================================================================== *)
(** * What follows the pointer to the diff                                *)
(* ===================================================================== *)

Lemma prefix_append (p s : string) : String.prefix p (p +:+ s) = true.
Proof.
  induction p as [| c p IH]; [destruct s; reflexivity |].
  rewrite append_cons. cbn [String.prefix].
  destruct (ascii_dec c c); [exact IH | congruence].
Qed.

Lemma drop_append (p s : string) : JS.drop (String.length p) (p +:+ s) = s.
Proof.
  induction p as [| c p IH]; [destruct s; reflexivity |].
  rewrite append_cons. exact IH.
Qed.

Lemma remove_first_prefix (p s : string) : JS.remove_first p (p +:+ s) = s.
Proof.
  destruct p as [| c p]; [destruct s; reflexivity |].
  rewrite append_cons. cbn [JS.remove_first].
  rewrite <- append_cons, prefix_append. apply (drop_append (String c p)).
Qed.

(** X16: which dump follows the pointer to the diff.  With
    [dumpInlineDiffToConsole] set, in a terminal that shows inline images
    [dumpDiffToConsole] plays no part, and in any other terminal the
    message is the one of [dumpDiffToConsole]; with neither option set the
    image string of the result is not in the message at all: the message
    is then the same for two results that differ in it only. *)
Theorem inline_dump_falls_back_to_the_paste_text
    (result : Result.t) (percentage : Number.t) (chalk : Chalk)
    (dump allow : bool) (w : World) :
  failure_message result percentage chalk dump true allow w
  = (if inline_capable (process_env w)
     then failure_message result percentage chalk false true allow w
     else failure_message result percentage chalk true false allow w)
  ∧ ∀ imgSrcString,
      failure_message result percentage chalk false false allow w
      = failure_message
          (Result.mk (Result.updated result) (Result.added result)
             (Result.pass result) (Result.diffSize result)
             (Result.diffRatio result) (Result.diffPixelCount result)
             (Result.imageDimensions result) (Result.diffOutputPath result)
             imgSrcString)
          percentage chalk false false allow w.
Proof.
  split.
  - unfold failure_message. cbv zeta. rewrite !run_bind.
    cbn [gets mret M_ret]. fold (inline_capable (process_env w)).
    destruct (inline_capable (process_env w)); [reflexivity |].
    rewrite orb_true_r. reflexivity.
  - intros imgSrcString. reflexivity.
Qed.

(** X17: the inline dump carries the image without the prefix of its data
    URL: for an image string that starts with [data:image/png;base64,]
    what stands between [width=40:] and the closing bell is the rest of the
    string, and the file name is the base64 text of [diffOutputPath]. *)
Theorem inline_dump_strips_the_data_url_prefix
    (result : Result.t) (payload : string) :
  Result.imgSrcString result = "data:image/png;base64," +:+ payload →
  inline_diff result
  = JS.LF +:+ JS.LF +:+ JS.TAB +:+ JS.ESC +:+ "]1337;File=name="
      +:+ JS.base64 (Result.diffOutputPath result)
      +:+ ";inline=1;width=40:" +:+ payload
      +:+ JS.BEL +:+ JS.ESC +:+ JS.LF +:+ JS.LF.
Proof.
  intros Himg. unfold inline_diff. rewrite Himg, remove_first_prefix.
  reflexivity.
Qed.

(** The theorem at [r_fail], whose diff is written to a path of 51
    characters. *)
Lemma inline_dump_strips_the_data_url_prefix_witness :
  inline_diff r_fail
  = JS.LF +:+ JS.LF +:+ JS.TAB +:+ JS.ESC +:+ "]1337;File=name="
      +:+ "L3AvX19kaWZmX291dHB1dC9sb2dpbi9zaG93cyB0aGUgZm9ybS1zbmFwLWRpZmYucG5n"
      +:+ ";inline=1;width=40:" +:+ "AAAA"
      +:+ JS.BEL +:+ JS.ESC +:+ JS.LF +:+ JS.LF.
Proof.
  rewrite (inline_dump_strips_the_data_url_prefix r_fail "AAAA" eq_refl).
  vm_compute. reflexivity.
Defined.
